(** * fastapi_tracing: the span-to-metric bridge and its registrar

    A shallow embedding of [src/fastapi_tracing/ops.py]
    ([SpanToMetricProcessor], [setup_otel]) and of the allow-list loop of
    [src/fastapi_tracing/app.py] ([_setup_app]); then of start-up
    ([_create_app] and the module body of api.py), of util.py
    ([hash_multiple], [authenticate]), of the handler [expensive] of
    api.py, and of the logging set-up of ops.py.

    Python values are embedded as follows.
    - [int] is [Z]; [Optional[int]] is [option Z].
    - [float] is an IEEE-754 binary64 value, [spec_float] at precision 53.
    - [str] is [string]; a [set[str]] is a [gset string]; a mapping with
      string keys is a [gmap string _].
    - A raised exception is the [Raise] branch of [result].
    - The histogram instrument is observed through the list of [record]
      calls made on it, oldest first. *)

From Stdlib Require Import ZArith Ascii Floats.SpecFloat.
From stdpp Require Import gmap strings list pretty.

Local Open Scope Z_scope.

(** ** Python expressions used by the bridge *)

Module Py.

Inductive exn : Type :=
| TypeError
| ZeroDivisionError
| OverflowError.

Inductive result (A : Type) : Type :=
| Ok (a : A)
| Raise (e : exn).
Global Arguments Ok {A} a.
Global Arguments Raise {A} e.

(** Python's [float]: binary64. *)
Definition prec : Z := 53.
Definition emax : Z := 1024.
Definition float : Type := spec_float.

(** [bool(x)] for [x : Optional[int]]: [None] and [0] are falsy. *)
Definition truthy (x : option Z) : bool :=
  match x with
  | None => false
  | Some n => negb (n =? 0)
  end.

(** [x - y] for [Optional[int]] operands; [None] has no [__sub__]. *)
Definition sub (x y : option Z) : result Z :=
  match x, y with
  | Some a, Some b => Ok (a - b)
  | _, _ => Raise TypeError
  end.

(** [a / b] on two [int]s: the correctly rounded quotient (round to
    nearest, ties to even), [ZeroDivisionError] for [b = 0] and
    [OverflowError] when the rounded quotient is not finite. *)
Definition truediv (a b : Z) : result float :=
  match b, a with
  | Z0, _ => Raise ZeroDivisionError
  | _, Z0 => Ok (S754_zero (b <? 0))
  | _, _ =>
      match SFdiv prec emax
              (S754_finite (a <? 0) (Z.to_pos (Z.abs a)) 0)
              (S754_finite (b <? 0) (Z.to_pos (Z.abs b)) 0) with
      | S754_infinity _ => Raise OverflowError
      | q => Ok q
      end
  end.

(** [math.copysign(1.0, q) < 0]: the sign bit of a float. *)
Definition signbit (q : float) : bool :=
  match q with
  | S754_zero s | S754_infinity s | S754_finite s _ _ => s
  | S754_nan => false
  end.

(** The literals [5.0] and [-5.0]. *)
Definition float_5 : float := S754_finite false 5629499534213120 (-50).
Definition float_neg_5 : float := S754_finite true 5629499534213120 (-50).

End Py.
Import Py.
Global Arguments truediv : simpl never.

(** ** Data model *)

(** Values a span attribute can hold ([opentelemetry.util.types]). *)
Inductive AttributeValue : Type :=
| AStr (s : string)
| ABool (b : bool)
| AInt (n : Z)
| AFloat (f : float).

Module Span.
Record t : Type := mk {
  name : string;
  _start_time : option Z;
  _end_time : option Z;
  attributes : gmap string AttributeValue;
}.
End Span.

(** The instrument returned by [meter.create_histogram]. *)
Module Histogram.
Record t : Type := mk {
  name : string;
  description : string;
  unit : string;
}.
End Histogram.

(** One call [histogram.record(amount=..., attributes=...)]. A dimension
    whose value is [None] is a key bound to [None], not a missing key. *)
Module Measurement.
Record t : Type := mk {
  instrument : Histogram.t;
  amount : float;
  attributes : gmap string (option AttributeValue);
}.
End Measurement.

Record SpanToMetricProcessor : Type := {
  span_names : gset string;
  request_latency_histogram : Histogram.t;
}.

(** The objects [on_end] can reach: the processor itself and the record
    calls received so far by the metrics pipeline. *)
Record World : Type := {
  this : SpanToMetricProcessor;
  recorded : list Measurement.t;
}.

(** State and exception monad of the method bodies. *)
Definition M (A : Type) : Type := World → result A * World.

Definition ret {A} (a : A) : M A := λ w, (Ok a, w).
Definition raise {A} (e : exn) : M A := λ w, (Raise e, w).
Definition bind {A B} (m : M A) (k : A → M B) : M B :=
  λ w, match m w with
       | (Ok a, w') => k a w'
       | (Raise e, w') => (Raise e, w')
       end.
Definition lift {A} (r : result A) : M A :=
  match r with
  | Ok a => ret a
  | Raise e => raise e
  end.
Definition get_self : M SpanToMetricProcessor := λ w, (Ok (this w), w).

Notation "'let!' x ':=' m 'in' k" := (bind m (λ x, k))
  (at level 10, x name, m at level 100, k at level 200).

(** [Histogram.record]: the call is appended to the pipeline's log. *)
Definition record (h : Histogram.t) (amount : float)
    (attributes : gmap string (option AttributeValue)) : M unit :=
  λ w, (Ok tt,
        {| this := this w;
           recorded := recorded w ++ [Measurement.mk h amount attributes] |}).

(** The attribute keys of [opentelemetry.semconv.trace.SpanAttributes] that
    the bridge reads; the library is not part of this repository, so the
    four constants are a parameter of the development. *)
Record SemConv : Type := {
  HTTP_METHOD : string;
  HTTP_ROUTE : string;
  HTTP_STATUS_CODE : string;
  HTTP_FLAVOR : string;
}.

(** The values the constants have in opentelemetry-semantic-conventions. *)
Definition otel_semconv : SemConv :=
  {| HTTP_METHOD := "http.method";
     HTTP_ROUTE := "http.route";
     HTTP_STATUS_CODE := "http.status_code";
     HTTP_FLAVOR := "http.flavor" |}.

(** ** ops.py *)

(** The module-level [meter] is bound twice; [__init__] runs after the
    module is loaded, but an instrument only keeps its own name,
    description and unit. *)
Definition create_histogram (name description unit : string) : Histogram.t :=
  Histogram.mk name description unit.

(** [SpanToMetricProcessor.__init__] *)
Definition __init__ (span_names : gset string) : SpanToMetricProcessor :=
  {| span_names := span_names;
     request_latency_histogram :=
       create_histogram "http.server.request.latency"
         "Measures the duration of inbound HTTP requests from spans." "ms" |}.

Section Bridge.

Variable SpanAttributes : SemConv.

(** The dictionary literal of step 3 of [on_end]: four fixed keys, each
    bound to [span.attributes.get(...)]. *)
Definition metric_attributes (span : Span.t)
    : gmap string (option AttributeValue) :=
  <["http.flavor" := Span.attributes span !! HTTP_FLAVOR SpanAttributes]>
  (<["http.status_code" :=
      Span.attributes span !! HTTP_STATUS_CODE SpanAttributes]>
  (<["http.route" := Span.attributes span !! HTTP_ROUTE SpanAttributes]>
  (<["http.method" :=
      Span.attributes span !! HTTP_METHOD SpanAttributes]> ∅))).

(** [SpanToMetricProcessor.on_end] *)
Definition on_end (span : Span.t) : M unit :=
  let! self := get_self in
  if negb (bool_decide (Span.name span ∈ span_names self)) then ret tt
  else
    let start_time_ns := Span._start_time span in
    let end_time_ns := Span._end_time span in
    if negb (truthy start_time_ns) || negb (truthy end_time_ns) then ret tt
    else
      let! elapsed_ns := lift (sub end_time_ns start_time_ns) in
      let! latency_ms := lift (truediv elapsed_ns 1000000) in
      let metric_attributes := metric_attributes span in
      record (request_latency_histogram self) latency_ms metric_attributes.

(** The world after one more record call on the processor's instrument,
    with amount [q] and the dimensions of [span]. *)
Definition after_record (w : World) (q : float) (span : Span.t) : World :=
  {| this := this w;
     recorded :=
       recorded w ++
       [Measurement.mk (request_latency_histogram (this w)) q
          (metric_attributes span)] |}.

End Bridge.

(** [setup_otel], restricted to what it installs on the tracer provider:
    the export processor, then the bridge when [span_metrics_names] is
    truthy (neither [None] nor the empty set). *)
Inductive SpanProcessor : Type :=
| BatchSpanProcessor
| MetricProcessor (p : SpanToMetricProcessor).

Definition setup_otel (span_metrics_names : option (gset string))
    : list SpanProcessor :=
  let tracer_provider := [] ++ [BatchSpanProcessor] in
  match span_metrics_names with
  | Some names =>
      if negb (bool_decide (names = ∅)) then
        let metric_processor := __init__ names in
        tracer_provider ++ [MetricProcessor metric_processor]
      else tracer_provider
  | None => tracer_provider
  end.

(** ** app.py *)

(** An entry of [app.routes]. [methods] lists the route's method set in
    the order in which the [for] loop visits it. *)
Module Route.
Record t : Type := mk {
  path : string;
  methods : list string;
}.
End Route.

(** The loop of [_setup_app] that fills [spans_to_emit_as_metrics]:
    [add(f"{method} {route.path}")] for every method of every route. *)
Definition spans_to_emit_as_metrics (routes : list Route.t) : gset string :=
  foldl (λ acc route,
           foldl (λ acc method,
                    acc ∪ {[ method +:+ " " +:+ Route.path route ]})
                 acc (Route.methods route))
        ∅ routes.

(** [_setup_app]: the allow-list is handed to [setup_otel]. *)
Definition _setup_app (routes : list Route.t) : list SpanProcessor :=
  setup_otel (Some (spans_to_emit_as_metrics routes)).

(** ** The tracing pipeline

    The SDK calls [on_end] of every registered processor, in registration
    order, each time a span ends. The export processor makes no call on
    the histogram. An exception leaves the remaining processors
    unnotified. *)
Section Pipeline.

Variable SpanAttributes : SemConv.

Fixpoint notify (procs : list SpanProcessor) (span : Span.t)
    (calls : list Measurement.t)
    : result unit * (list SpanProcessor * list Measurement.t) :=
  match procs with
  | [] => (Ok tt, ([], calls))
  | BatchSpanProcessor :: rest =>
      let '(r, (rest', calls')) := notify rest span calls in
      (r, (BatchSpanProcessor :: rest', calls'))
  | MetricProcessor p :: rest =>
      match on_end SpanAttributes span {| this := p; recorded := calls |} with
      | (Ok _, w) =>
          let '(r, (rest', calls')) := notify rest span (recorded w) in
          (r, (MetricProcessor (this w) :: rest', calls'))
      | (Raise e, w) =>
          (Raise e, (MetricProcessor (this w) :: rest, recorded w))
      end
  end.

(** The spans of a whole run, ended one after the other. *)
Fixpoint serve (procs : list SpanProcessor) (spans : list Span.t)
    (calls : list Measurement.t) : list SpanProcessor * list Measurement.t :=
  match spans with
  | [] => (procs, calls)
  | span :: later =>
      let '(_, (procs', calls')) := notify procs span calls in
      serve procs' later calls'
  end.

End Pipeline.

(** ** The allow-list in the specification's words

    "for every route, for every accepted method, compose the string
    <METHOD> <path> (method uppercased)". *)

Definition ascii_upper (c : ascii) : ascii :=
  let n := nat_of_ascii c in
  if (Nat.leb 97 n && Nat.leb n 122)%bool then ascii_of_nat (n - 32) else c.

Fixpoint str_upper (s : string) : string :=
  match s with
  | EmptyString => EmptyString
  | String c rest => String (ascii_upper c) (str_upper rest)
  end.

Definition allow_list_uppercased (routes : list Route.t) : gset string :=
  list_to_set
    (route ← routes;
     method ← Route.methods route;
     [str_upper method +:+ " " +:+ Route.path route]).

(** Route tables as the framework holds them: FastAPI's [APIRoute] and
    Starlette's [Route] store the methods they are given uppercased, so
    uppercasing a stored method changes nothing. *)
Definition uppercase_methods (routes : list Route.t) : Prop :=
  ∀ route method,
    route ∈ routes → method ∈ Route.methods route →
    str_upper method = method.

(** Two enumerations of one route table: the routes in another order, and
    the method set of each route visited in another order. *)
Definition same_route (r r' : Route.t) : Prop :=
  Route.path r = Route.path r' ∧ Route.methods r ≡ₚ Route.methods r'.

Definition reordered (routes routes' : list Route.t) : Prop :=
  ∃ shuffled, routes ≡ₚ shuffled ∧ Forall2 same_route shuffled routes'.

(** ** The concrete scenarios of the specification

    Route table [("/ping", {GET})], hence allow-list {"GET /ping"}, and a
    histogram that has not been recorded on yet. *)

Definition ping_world : World :=
  {| this := __init__ {["GET /ping"]}; recorded := [] |}.

Definition ping_span (start_time end_time : option Z) : Span.t :=
  Span.mk "GET /ping" start_time end_time ∅.

(** An HTTP method is a token: it holds no space. *)
Fixpoint has_space (s : string) : bool :=
  match s with
  | EmptyString => false
  | String c rest => bool_decide (c = " "%char) || has_space rest
  end.

(** ** Start-up: app.py's factory and the module body of api.py

    The state of the interpreter that start-up reads and writes:
    - [app_instance], the variable of [_create_app] that [inner] closes
      over, holding [None] or the address of a [FastAPI] object;
    - [objects], the route table [app.routes] of each [FastAPI] object
      created so far, by address;
    - [api_loaded], whether [fastapi_tracing.api] is in [sys.modules]
      (it is entered there before its body runs);
    - [api_app], the global [app] of api.py;
    - [providers], the processor list of each tracer provider installed
      by a call of [setup_otel];
    - [logging_setups], the number of calls of [setup_structured_logging].

    [inner], [_setup_app] and the import of api.py call one another, so
    [inner] takes the depth of calls it may still make as fuel. *)
Module Startup.

Record Process : Type := {
  app_instance : option nat;
  objects : list (list Route.t);
  api_loaded : bool;
  api_app : option nat;
  providers : list (list SpanProcessor);
  logging_setups : nat;
}.

(** Before either module has run. *)
Definition initial : Process :=
  {| app_instance := None; objects := []; api_loaded := false;
     api_app := None; providers := []; logging_setups := 0%nat |}.

Inductive outcome (A : Type) : Type :=
| Returned (a : A) (σ : Process)
| AttributeError (σ : Process)
| OutOfFuel.
Global Arguments Returned {A} a σ.
Global Arguments AttributeError {A} σ.
Global Arguments OutOfFuel {A}.

(** The routes declared by the decorators of api.py, in source order. *)
Definition api_routes : list Route.t :=
  [Route.mk "/" ["GET"]; Route.mk "/ping" ["GET"];
   Route.mk "/session" ["GET"]; Route.mk "/slowish" ["GET"];
   Route.mk "/slow/and/unstable" ["GET"]; Route.mk "/hash" ["POST"]].

(** [@app.get(path)] / [@app.post(path)]: the route is appended to the
    routes of the object at address [a]. *)
Definition add_api_route (a : nat) (objects : list (list Route.t))
    (route : Route.t) : list (list Route.t) :=
  alter (λ routes, routes ++ [route]) a objects.

Section Framework.

(** The routes a new [FastAPI()] object already has (its documentation
    endpoints); the framework is not part of this repository. *)
Variable framework_routes : list Route.t.

(** The body of api.py: [app = get_or_create_app()], then the decorators.
    A decorator on [None] raises. *)
Definition api_body (get_or_create_app : Process → outcome (option nat))
    (σ : Process) : outcome unit :=
  match get_or_create_app σ with
  | Returned (Some a) σ =>
      Returned tt
        {| app_instance := app_instance σ;
           objects := foldl (add_api_route a) (objects σ) api_routes;
           api_loaded := api_loaded σ;
           api_app := Some a;
           providers := providers σ;
           logging_setups := logging_setups σ |}
  | Returned None σ =>
      AttributeError
        {| app_instance := app_instance σ; objects := objects σ;
           api_loaded := api_loaded σ; api_app := None;
           providers := providers σ; logging_setups := logging_setups σ |}
  | AttributeError σ => AttributeError σ
  | OutOfFuel => OutOfFuel
  end.

(** [from . import api]: the body runs only if the module is not in
    [sys.modules] yet; a body that raises is taken out again. *)
Definition import_api (get_or_create_app : Process → outcome (option nat))
    (σ : Process) : outcome unit :=
  if api_loaded σ then Returned tt σ
  else
    match api_body get_or_create_app
            {| app_instance := app_instance σ; objects := objects σ;
               api_loaded := true; api_app := api_app σ;
               providers := providers σ;
               logging_setups := logging_setups σ |} with
    | AttributeError σ =>
        AttributeError
          {| app_instance := app_instance σ; objects := objects σ;
             api_loaded := false; api_app := api_app σ;
             providers := providers σ;
             logging_setups := logging_setups σ |}
    | done => done
    end.

(** [_setup_app(app)], with its effects: the import, the allow-list
    loop over [app.routes], [setup_otel] and [setup_structured_logging]. *)
Definition _setup_app (get_or_create_app : Process → outcome (option nat))
    (app : nat) (σ : Process) : outcome unit :=
  match import_api get_or_create_app σ with
  | Returned _ σ =>
      let routes := default [] (objects σ !! app) in
      let spans_to_emit_as_metrics := spans_to_emit_as_metrics routes in
      Returned tt
        {| app_instance := app_instance σ; objects := objects σ;
           api_loaded := api_loaded σ; api_app := api_app σ;
           providers :=
             providers σ ++ [setup_otel (Some spans_to_emit_as_metrics)];
           logging_setups := S (logging_setups σ) |}
  | failed => failed
  end.

(** [inner], the function [_create_app] returns. *)
Fixpoint inner (fuel : nat) (σ : Process) : outcome (option nat) :=
  match fuel with
  | O => OutOfFuel
  | S fuel =>
      match app_instance σ with
      | Some a => Returned (Some a) σ
      | None =>
          let a := length (objects σ) in
          match _setup_app (inner fuel) a
                  {| app_instance := Some a;
                     objects := objects σ ++ [framework_routes];
                     api_loaded := api_loaded σ; api_app := api_app σ;
                     providers := providers σ;
                     logging_setups := logging_setups σ |} with
          | Returned _ σ => Returned (app_instance σ) σ
          | AttributeError σ => AttributeError σ
          | OutOfFuel => OutOfFuel
          end
      end
  end.

(** [get_or_create_app = _create_app()] *)
Definition get_or_create_app : nat → Process → outcome (option nat) := inner.

(** What the rest of the program can do to obtain the app: call the
    factory, or import api.py and read its [app]. *)
Inductive request : Type :=
| CallFactory
| ImportApi.

Definition obtain (fuel : nat) (r : request) (σ : Process)
    : outcome (option nat) :=
  match r with
  | CallFactory => get_or_create_app fuel σ
  | ImportApi =>
      match import_api (get_or_create_app fuel) σ with
      | Returned _ σ => Returned (api_app σ) σ
      | AttributeError σ => AttributeError σ
      | OutOfFuel => OutOfFuel
      end
  end.

(** A sequence of such requests: the apps obtained, and the final state;
    [None] if one of them fails. *)
Fixpoint obtain_all (fuel : nat) (rs : list request) (σ : Process)
    : option (list (option nat) * Process) :=
  match rs with
  | [] => Some ([], σ)
  | r :: rs =>
      match obtain fuel r σ with
      | Returned app σ =>
          match obtain_all fuel rs σ with
          | Some (apps, σ) => Some (app :: apps, σ)
          | None => None
          end
      | _ => None
      end
  end.

End Framework.

(** The app exists at address 0, api.py is loaded and its [app] is that
    app: the state start-up settles in. *)
Definition settled (σ : Process) : Prop :=
  app_instance σ = Some 0%nat ∧ api_loaded σ = true ∧
  api_app σ = Some 0%nat.

End Startup.

(** ** util.py and the handlers of api.py

    What these functions do besides returning is kept as the list of
    events they cause, oldest first. Values drawn from [random] are
    arguments. *)
Inductive event : Type :=
| LogInfo (logger message : string)
| LogWarning (logger message : string)
| SpanStart (name : string)
| SpanEnd (name : string)
| SetAttribute (span key : string) (value : float)
| Sleep (seconds : float).

Module Util.

Section Hash.

(** [hashlib.sha512(s.encode()).hexdigest()]; hashlib is not part of this
    repository. *)
Variable sha512_hexdigest : string → string.

(** [hash_multiple]: one digest of the input, then [rounds] digests of
    the digest; [range(rounds)] is empty for [rounds <= 0]. *)
Definition hash_multiple (input_str : string) (rounds : Z)
    : string * list event :=
  let log := [LogInfo "util" ("Hashing " +:+ pretty rounds +:+ " rounds")] in
  let current_hash := sha512_hexdigest input_str in
  (Nat.iter (Z.to_nat rounds) sha512_hexdigest current_hash, log).

End Hash.

(** A request, as far as [authenticate] reads it: the value of
    [request.headers.get('Authorization')]. *)
Record Request : Type := {
  authorization : option string;
}.

Inductive response (A : Type) : Type :=
| Return (a : A)
| HTTPException (status_code : Z) (detail : string).
Global Arguments Return {A} a.
Global Arguments HTTPException {A} status_code detail.

(** [bool(x)] for [x : Optional[str]]: [None] and [""] are falsy. *)
Definition str_truthy (x : option string) : bool :=
  match x with
  | Some (String _ _) => true
  | _ => false
  end.

(** [get_user_session]; [delay] is the value of [random.uniform(0, .5)]. *)
Definition get_user_session (delay : float) : list event :=
  [LogInfo "util" "Simulating getting user session";
   SpanStart "get_user_session"; Sleep delay; SpanEnd "get_user_session"].

(** [authenticate] *)
Definition authenticate (delay : float) (request : Request)
    : response bool * list event :=
  let auth_header := authorization request in
  let log :=
    [LogInfo "util" "Simulating authentication";
     LogInfo "util"
       ((if str_truthy auth_header then "" else "No ")
        +:+ "Authorization header received")] in
  if negb (str_truthy auth_header) then
    (HTTPException 401 "Unauthorized", log)
  else (Return true, log ++ get_user_session delay).

End Util.

Module Api.

(** The value [request.json()] returns. *)
#[warnings="-register-all"] Inductive json : Type :=
| JNull
| JBool (b : bool)
| JInt (n : Z)
| JFloat (f : float)
| JStr (s : string)
| JArr (items : list json)
| JObj (members : list (string * json)).

(** [bool(x)] of such a value. *)
Definition json_truthy (x : json) : bool :=
  match x with
  | JNull => false
  | JBool b => b
  | JInt n => negb (n =? 0)
  | JFloat (S754_zero _) => false
  | JFloat _ => true
  | JStr s => negb (bool_decide (s = ""))
  | JArr items => negb (bool_decide (items = []))
  | JObj members => negb (bool_decide (members = []))
  end.

(** What a handler hands back: the status code it set on [response], if
    any, the dictionary it returned, and the events it caused. *)
Record Reply : Type := {
  status_code : option Z;
  body : list (string * string);
  events : list event;
}.

(** An awaited call of the framework or a method of [bytes]: it gives a
    value, or raises an exception of some class. *)
Inductive attempt (A : Type) : Type :=
| Value (a : A)
| Throws (exception : string).
Global Arguments Value {A} a.
Global Arguments Throws {A} exception.

(** A handler replies, or lets an exception through after the events it
    caused so far. *)
Inductive outcome : Type :=
| Replied (reply : Reply)
| Propagated (exception : string) (events : list event).

Section Handlers.

Variable sha512_hexdigest : string → string.

(** [expensive]. [parsed] is the outcome of [await request.json()] and
    [text] that of [(await request.body()).decode()], which is evaluated
    inside the first span and only for a truthy body; [rounds],
    [db_delay], [call_delay] and [failed] are the four random draws, in
    source order. The handler catches nothing, and a [with] block ends
    its span when an exception leaves it. *)
Definition expensive (parsed : attempt json) (text : attempt string)
    (rounds : Z) (db_delay call_delay : float) (failed : bool) : outcome :=
  match parsed with
  | Throws exception => Propagated exception []
  | Value parsed =>
      if negb (json_truthy parsed) then
        Replied
          {| status_code := Some 400;
             body := [("message", "no json body")];
             events := [] |}
      else
        match text with
        | Throws exception =>
            Propagated exception
              [SpanStart "pointless hashing operation";
               SpanEnd "pointless hashing operation"]
        | Value text =>
            let '(hash_val, hashing) :=
              Util.hash_multiple sha512_hexdigest text rounds in
            Replied
              {| status_code := None;
                 body := [("message", "success"); ("hash", hash_val)];
                 events :=
                   [SpanStart "pointless hashing operation"] ++ hashing ++
                   [SpanEnd "pointless hashing operation";
                    SpanStart "simulated work";
                    SpanStart "db query";
                    LogInfo "api" "Simulated DB query";
                    Sleep db_delay;
                    SetAttribute "db query" "duration" db_delay;
                    SpanEnd "db query";
                    SpanStart "simulated external call";
                    Sleep call_delay;
                    (if failed
                     then LogWarning "api" "Simulated external call failed"
                     else LogInfo "api" "Simulated external call success");
                    SetAttribute "simulated external call" "duration"
                      call_delay;
                    SpanEnd "simulated external call";
                    SpanEnd "simulated work"] |}
        end
  end.

End Handlers.

End Api.

(** ** ops.py: structured logging

    The root logger as [setup_structured_logging] and
    [logging.basicConfig] see it: its handlers, in the order they were
    added, and its level. *)
Module Logging.

(** [AppNameFilter]: the name it stamps on records; [app_name] may be
    [None]. *)
Record AppNameFilter : Type := {
  appname : option string;
}.

Inductive Formatter : Type :=
| PlainFormatter (fmt : string)
| JsonFormatter (fmt : string) (rename_fields : list (string * string)).

Inductive handler_class : Type :=
| StreamHandler
| OtelLoggingHandler.

Record Handler : Type := {
  class : handler_class;
  level : Z;
  filters : list AppNameFilter;
  formatter : option Formatter;
}.

Record Root : Type := {
  handlers : list Handler;
  root_level : Z;
}.

Definition NOTSET : Z := 0.
Definition INFO : Z := 20.
Definition WARNING : Z := 30.

Inductive completion : Type :=
| Done
| AttributeError
| OtherException (class : string).

Definition addFilter (f : AppNameFilter) (h : Handler) : Handler :=
  {| class := class h; level := level h; filters := filters h ++ [f];
     formatter := formatter h |}.

Definition setFormatter (fmt : Formatter) (h : Handler) : Handler :=
  {| class := class h; level := level h; filters := filters h;
     formatter := Some fmt |}.

(** The loop of [logging.basicConfig] over its [handlers] argument: a
    handler without formatter gets the default one, then is added to the
    root logger. An entry that is [None] has no attribute [formatter]. *)
Fixpoint add_handlers (fmt : Formatter) (hs : list (option Handler))
    (root : Root) : completion * Root :=
  match hs with
  | [] => (Done, root)
  | None :: _ => (AttributeError, root)
  | Some h :: rest =>
      let h := match formatter h with
               | None => setFormatter fmt h
               | Some _ => h
               end in
      add_handlers fmt rest
        {| handlers := handlers root ++ [h]; root_level := root_level root |}
  end.

(** [logging.basicConfig(level=..., format=..., handlers=...)]: nothing
    happens when the root logger already has handlers; otherwise the
    handlers are added, then the level is set. *)
Definition basicConfig (level : Z) (format : string)
    (hs : list (option Handler)) (root : Root) : completion * Root :=
  match handlers root with
  | [] =>
      match add_handlers (PlainFormatter format) hs root with
      | (Done, root) =>
          (Done, {| handlers := handlers root; root_level := level |})
      | failed => failed
      end
  | _ :: _ => (Done, root)
  end.

(** The process-wide logging state: the root logger, and whether the
    logging instrumentor has instrumented the process. *)
Record State : Type := {
  root : Root;
  instrumented : bool;
}.

Definition json_format : string :=
  "%(asctime)s %(levelname)s %(appname)s %(message)s %(otelTraceID)s %(otelSpanID)s %(otelTraceSampled)s".

Definition json_rename_fields : list (string * string) :=
  [("levelname", "severity");
   ("asctime", "timestamp");
   ("otelTraceID", "logging.googleapis.com/trace");
   ("otelSpanID", "logging.googleapis.com/spanId");
   ("otelTraceSampled", "logging.googleapis.com/trace_sampled")].

Section Instrumentor.

(** [LoggingInstrumentor().instrument()]. The instrumentor is not part of
    this repository: what the call does to the logging state it finds,
    and whether it returns or raises, is a parameter. *)
Variable instrument : State → completion * State.

(** [setup_structured_logging]; the call of [instrument] is its last
    statement. *)
Definition setup_structured_logging (app_name : option string)
    (enable_otel enable_json_formatter : bool) (log_level : Z)
    (σ : State) : completion * State :=
  let otel_handler :=
    if enable_otel then
      Some {| class := OtelLoggingHandler; level := log_level;
              filters := []; formatter := None |}
    else None in
  let stream_handler :=
    {| class := StreamHandler; level := NOTSET; filters := [];
       formatter := None |} in
  let app_name_filter := {| appname := app_name |} in
  let stream_handler := addFilter app_name_filter stream_handler in
  let otel_handler := addFilter app_name_filter <$> otel_handler in
  let json_formatter := JsonFormatter json_format json_rename_fields in
  let stream_handler :=
    if enable_json_formatter then setFormatter json_formatter stream_handler
    else stream_handler in
  let handlers :=
    [Some stream_handler; if enable_otel then otel_handler else None] in
  match basicConfig log_level "%(levelname)-7s %(message)s" handlers
          (root σ) with
  | (Done, root) =>
      instrument {| root := root; instrumented := instrumented σ |}
  | (failed, root) =>
      (failed, {| root := root; instrumented := instrumented σ |})
  end.

End Instrumentor.

(** A stand-in for the instrumentor, to run the function on: it
    instruments once and raises when asked again. *)
Definition instrument_once (σ : State) : completion * State :=
  if instrumented σ then (AttributeError, σ)
  else (Done, {| root := root σ; instrumented := true |}).

(** A log record, as far as [AppNameFilter.filter] touches it: its
    attributes by name. *)
Definition filter (f : AppNameFilter) (record : gmap string (option string))
    : bool * gmap string (option string) :=
  (true, <["appname" := appname f]> record).

End Logging.

(** A float that is the integer [k] exactly: its value
    [(-1)^s * m * 2^e] is [k]. *)
Definition float_is_integer (q : float) (k : Z) : Prop :=
  match q with
  | S754_zero _ => k = 0
  | S754_finite s m e =>
      s = (k <? 0) ∧ e ≤ 0 ∧ Z.pos m = Z.abs k * 2 ^ (- e)
  | _ => False
  end.

(** * Properties *)

(** ** Python expressions *)

Lemma truthy_None : truthy None = false.
Proof. reflexivity. Qed.

Lemma truthy_zero : truthy (Some 0) = false.
Proof. reflexivity. Qed.

Lemma truthy_Some (x : option Z) :
  truthy x = true ↔ ∃ n, x = Some n ∧ n ≠ 0.
Proof.
  destruct x as [n|]; simpl.
  - rewrite negb_true_iff, Z.eqb_neq. split.
    + intros Hn. exists n. done.
    + intros (k & [= <-] & Hk). done.
  - split; [done | intros (n & Hn & _); done].
Qed.

Example truediv_5ms : truediv (5000000 - 0) 1000000 = Ok float_5.
Proof. vm_compute. reflexivity. Qed.

Example truediv_neg_5ms : truediv (5000000 - 10000000) 1000000 = Ok float_neg_5.
Proof. vm_compute. reflexivity. Qed.

Example truediv_third :
  truediv 1 3 = Ok (S754_finite false 6004799503160661 (-54)).
Proof. vm_compute. reflexivity. Qed.

(** A dividend wider than the 53-bit mantissa is still rounded once. *)
Example truediv_wide :
  truediv (2 ^ 80 + 1) 1000000 = Ok (S754_finite false 4722366482869645 8).
Proof. vm_compute. reflexivity. Qed.

Example truediv_overflow : truediv (10 ^ 400) 1000000 = Raise OverflowError.
Proof. vm_compute. reflexivity. Qed.

(** A division by a nonzero constant can only fail by overflow. *)
Lemma truediv_cases (a b : Z) :
  b ≠ 0 → (∃ q, truediv a b = Ok q) ∨ truediv a b = Raise OverflowError.
Proof.
  intros Hb. unfold truediv.
  destruct b as [| b | b]; [done | |];
    (destruct a as [| a | a]; [left; eexists; reflexivity | |]);
    match goal with
    | |- context [SFdiv ?p ?m ?x ?y] => destruct (SFdiv p m x y)
    end;
    first [left; eexists; reflexivity | right; reflexivity].
Qed.

(** *** Rounding: sign and range of the quotient

    The mantissa never grows while it is shifted right, and rounding adds
    at most one unit; this bounds the exponent the rounding ends with. *)

Lemma digits2_pos_size (p : positive) : digits2_pos p = Pos.size p.
Proof. induction p as [p IH | p IH |]; simpl; congruence. Qed.

Lemma Zdigits2_nonneg (x : Z) : 0 ≤ Zdigits2 x.
Proof. destruct x; simpl; lia. Qed.

Lemma Zdigits2_le (x k : Z) : 0 ≤ k → 0 ≤ x < 2 ^ k → Zdigits2 x ≤ k.
Proof.
  intros Hk Hx. destruct x as [| p | p]; simpl; [lia | | lia].
  rewrite digits2_pos_size.
  pose proof (Pos.size_le p) as Hsize.
  apply Pos2Z.pos_le_pos in Hsize. rewrite Pos2Z.inj_pow in Hsize.
  apply Z.lt_succ_r. apply (Z.pow_lt_mono_r_iff 2); [lia | lia |].
  rewrite Z.pow_succ_r by lia. lia.
Qed.

Lemma pos_lt_pow_digits (p : positive) : Z.pos p < 2 ^ Z.pos (digits2_pos p).
Proof.
  rewrite digits2_pos_size. pose proof (Pos.size_gt p) as Hsize.
  apply Pos2Z.pos_lt_pos in Hsize. by rewrite Pos2Z.inj_pow in Hsize.
Qed.

Lemma shr_1_bounds (mrs : shr_record) :
  0 ≤ shr_m mrs → 0 ≤ shr_m (shr_1 mrs) ≤ shr_m mrs.
Proof.
  destruct mrs as [m r s]. destruct m as [| p | p]; [| destruct p |];
    simpl; lia.
Qed.

Lemma iter_shr_1_bounds (n : positive) (mrs : shr_record) :
  0 ≤ shr_m mrs → 0 ≤ shr_m (SpecFloat.iter_pos shr_1 n mrs) ≤ shr_m mrs.
Proof.
  revert mrs. induction n as [n IH | n IH |]; intros mrs Hm; simpl.
  - pose proof (shr_1_bounds mrs Hm) as H1.
    pose proof (IH (shr_1 mrs) (proj1 H1)) as H2.
    pose proof (IH _ (proj1 H2)) as H3. lia.
  - pose proof (IH mrs Hm) as H2.
    pose proof (IH _ (proj1 H2)) as H3. lia.
  - by apply shr_1_bounds.
Qed.

Lemma shr_fexp_bounds (m e : Z) (l : location) :
  0 ≤ m →
  0 ≤ shr_m (shr_fexp prec emax m e l).1 ≤ m ∧
  (shr_fexp prec emax m e l).2 = Z.max e (fexp prec emax (Zdigits2 m + e)).
Proof.
  intros Hm. unfold shr_fexp, shr.
  assert (Hrec : shr_m (shr_record_of_loc m l) = m) by (by destruct l as [| []]).
  destruct (fexp prec emax (Zdigits2 m + e) - e) as [| n | n] eqn:Hn; simpl.
  - rewrite Hrec. lia.
  - pose proof (iter_shr_1_bounds n (shr_record_of_loc m l)) as Hb.
    rewrite Hrec in Hb. lia.
  - rewrite Hrec. lia.
Qed.

Lemma round_nearest_even_bounds (m : Z) (l : location) :
  0 ≤ m → 0 ≤ round_nearest_even m l ≤ m + 1.
Proof.
  intros Hm. destruct l as [| []]; simpl; try destruct (Z.even m); lia.
Qed.

(** Rounding a non-negative mantissa keeps the sign it is given, and the
    result is a number. *)
Lemma binary_round_aux_sign (sx : bool) (mx ex : Z) (lx : location) :
  0 ≤ mx →
  match binary_round_aux prec emax sx mx ex lx with
  | S754_zero s | S754_finite s _ _ | S754_infinity s => s = sx
  | S754_nan => False
  end.
Proof.
  intros Hmx. unfold binary_round_aux.
  destruct (shr_fexp_bounds mx ex lx Hmx) as [Hm1 _].
  destruct (shr_fexp prec emax mx ex lx) as [mrs1 e1]. simpl in Hm1.
  pose proof (round_nearest_even_bounds (shr_m mrs1) (loc_of_shr_record mrs1)
                (proj1 Hm1)) as Hr.
  set (mr := round_nearest_even (shr_m mrs1) (loc_of_shr_record mrs1)) in *.
  destruct (shr_fexp_bounds mr e1 loc_Exact) as [Hm2 _]; [lia |].
  destruct (shr_fexp prec emax mr e1 loc_Exact) as [mrs2 e2]. simpl in Hm2.
  destruct (shr_m mrs2) as [| m | m]; [reflexivity | | lia].
  by destruct (e2 <=? emax - prec).
Qed.

(** A mantissa below [2 ^ D] with a non-positive exponent rounds to a
    finite float as long as [D ≤ 511]. *)
Lemma binary_round_aux_finite (sx : bool) (mx ex : Z) (lx : location) (D : Z) :
  0 ≤ mx < 2 ^ D → 0 ≤ D ≤ 511 → ex ≤ 0 →
  ∀ s, binary_round_aux prec emax sx mx ex lx ≠ S754_infinity s.
Proof.
  intros Hmx HD Hex s. unfold binary_round_aux.
  destruct (shr_fexp_bounds mx ex lx) as [Hm1 He1]; [lia |].
  destruct (shr_fexp prec emax mx ex lx) as [mrs1 e1]. simpl in Hm1, He1.
  pose proof (round_nearest_even_bounds (shr_m mrs1) (loc_of_shr_record mrs1)
                (proj1 Hm1)) as Hr.
  set (mr := round_nearest_even (shr_m mrs1) (loc_of_shr_record mrs1)) in *.
  destruct (shr_fexp_bounds mr e1 loc_Exact) as [Hm2 He2]; [lia |].
  destruct (shr_fexp prec emax mr e1 loc_Exact) as [mrs2 e2].
  simpl in Hm2, He2.
  assert (Hd1 : Zdigits2 mx ≤ D) by (apply Zdigits2_le; lia).
  assert (Hdr : Zdigits2 mr ≤ D + 1).
  { apply Zdigits2_le; [lia |]. rewrite Z.pow_add_r, Z.pow_1_r by lia. lia. }
  pose proof (Zdigits2_nonneg mx). pose proof (Zdigits2_nonneg mr).
  unfold fexp, emin, prec, emax in *.
  destruct (shr_m mrs2) as [| m | m]; [done | | done].
  destruct (e2 <=? 1024 - 53) eqn:Hle; [done |].
  apply Z.leb_gt in Hle. lia.
Qed.

(** The integer quotient that the division hands to the rounding. *)
Lemma SFdiv_core_nonneg (m1 m2 : positive) :
  0 ≤ (SFdiv_core_binary prec emax (Z.pos m1) 0 (Z.pos m2) 0).1.1.
Proof.
  unfold SFdiv_core_binary.
  set (e' := Z.min _ _).
  set (m' := match 0 - 0 - e' with
             | 0 => Z.pos m1
             | Z.pos _ => Z.shiftl (Z.pos m1) (0 - 0 - e')
             | Z.neg _ => 0
             end).
  assert (Hm' : 0 ≤ m').
  { unfold m'. destruct (0 - 0 - e') as [| s | s]; [lia | | lia].
    apply Z.shiftl_nonneg. lia. }
  clearbody m' e'.
  destruct (Z.div_eucl m' (Z.pos m2)) as [q r] eqn:Hdiv. simpl.
  assert (Hq : q = m' / Z.pos m2) by (unfold Z.div; by rewrite Hdiv).
  subst q. apply Z.div_pos; lia.
Qed.

Lemma SFdiv_core_bounds (m1 m2 : positive) :
  Z.pos m1 < 2 ^ 256 → Z.pos m2 < 2 ^ 256 →
  (SFdiv_core_binary prec emax (Z.pos m1) 0 (Z.pos m2) 0).1.1 < 2 ^ 309 ∧
  (SFdiv_core_binary prec emax (Z.pos m1) 0 (Z.pos m2) 0).1.2 ≤ 0.
Proof.
  intros H1 H2. unfold SFdiv_core_binary.
  pose proof (pos_lt_pow_digits m1) as Hd1.
  assert (Hb1 : Zdigits2 (Z.pos m1) ≤ 256) by (apply Zdigits2_le; lia).
  assert (Hb2 : Zdigits2 (Z.pos m2) ≤ 256) by (apply Zdigits2_le; lia).
  change (Zdigits2 (Z.pos m1)) with (Z.pos (digits2_pos m1)) in *.
  change (Zdigits2 (Z.pos m2)) with (Z.pos (digits2_pos m2)) in *.
  set (d1 := Z.pos (digits2_pos m1)) in *.
  set (d2 := Z.pos (digits2_pos m2)) in *.
  set (e' := Z.min (fexp prec emax (d1 + 0 - (d2 + 0))) (0 - 0)).
  assert (He' : e' ≤ 0 ∧ (e' < 0 → d1 - d2 - 53 ≤ e')).
  { unfold e', fexp, emin, prec, emax. lia. }
  set (m' := match 0 - 0 - e' with
             | 0 => Z.pos m1
             | Z.pos _ => Z.shiftl (Z.pos m1) (0 - 0 - e')
             | Z.neg _ => 0
             end).
  assert (Hm' : 0 ≤ m' < 2 ^ 309).
  { unfold m'. destruct (0 - 0 - e') as [| s | s] eqn:Hs.
    - split; [lia |]. apply Z.lt_le_trans with (2 ^ 256); [done |].
      apply Z.pow_le_mono_r; lia.
    - rewrite Z.shiftl_mul_pow2 by lia. split; [lia |].
      apply Z.lt_le_trans with (2 ^ d1 * 2 ^ Z.pos s).
      + apply Z.mul_lt_mono_pos_r; [apply Z.pow_pos_nonneg; lia | done].
      + rewrite <- Z.pow_add_r by lia. apply Z.pow_le_mono_r; lia.
    - split; [lia |]. apply Z.pow_pos_nonneg; lia. }
  clearbody m' e'.
  destruct (Z.div_eucl m' (Z.pos m2)) as [q r] eqn:Hdiv. simpl.
  assert (Hq : q = m' / Z.pos m2) by (unfold Z.div; by rewrite Hdiv).
  split; [| lia]. subst q.
  apply Z.le_lt_trans with m'; [| lia].
  apply Z.div_le_upper_bound; [lia |]. nia.
Qed.

Lemma SFdiv_int_sign (sa : bool) (a b : positive) :
  match SFdiv prec emax (S754_finite sa a 0) (S754_finite false b 0) with
  | S754_zero s | S754_finite s _ _ | S754_infinity s => s = sa
  | S754_nan => False
  end.
Proof.
  unfold SFdiv. pose proof (SFdiv_core_nonneg a b) as Hq.
  destruct (SFdiv_core_binary prec emax (Z.pos a) 0 (Z.pos b) 0)
    as [[mz ez] lz]. simpl in Hq.
  rewrite xorb_false_r. by apply binary_round_aux_sign.
Qed.

Lemma SFdiv_int_finite (sa : bool) (a b : positive) :
  Z.pos a < 2 ^ 256 → Z.pos b < 2 ^ 256 →
  ∀ s, SFdiv prec emax (S754_finite sa a 0) (S754_finite false b 0)
       ≠ S754_infinity s.
Proof.
  intros Ha Hb. unfold SFdiv.
  pose proof (SFdiv_core_nonneg a b) as Hq0.
  destruct (SFdiv_core_bounds a b Ha Hb) as [Hq He].
  destruct (SFdiv_core_binary prec emax (Z.pos a) 0 (Z.pos b) 0)
    as [[mz ez] lz]. simpl in Hq0, Hq, He.
  apply (binary_round_aux_finite _ mz ez lz 309); lia.
Qed.

(** With a positive divisor the quotient has the sign of the dividend. *)
Lemma truediv_sign (a b : Z) (q : float) :
  0 < b → truediv a b = Ok q → signbit q = (a <? 0).
Proof.
  intros Hb. unfold truediv.
  destruct b as [| b | b]; [lia | | lia].
  destruct a as [| a | a]; [by intros [= <-] | |].
  - change (Z.to_pos (Z.abs (Z.pos a))) with a.
    change (Z.to_pos (Z.abs (Z.pos b))) with b.
    change (Z.pos a <? 0) with false. change (Z.pos b <? 0) with false.
    pose proof (SFdiv_int_sign false a b) as Hsign.
    destruct (SFdiv prec emax (S754_finite false a 0) (S754_finite false b 0));
      intros [= <-]; done.
  - change (Z.to_pos (Z.abs (Z.neg a))) with a.
    change (Z.to_pos (Z.abs (Z.pos b))) with b.
    change (Z.neg a <? 0) with true. change (Z.pos b <? 0) with false.
    pose proof (SFdiv_int_sign true a b) as Hsign.
    destruct (SFdiv prec emax (S754_finite true a 0) (S754_finite false b 0));
      intros [= <-]; done.
Qed.

(** Operands below [2 ^ 256] in magnitude never overflow. *)
Lemma truediv_finite (a b : Z) :
  Z.abs a < 2 ^ 256 → 0 < b < 2 ^ 256 → ∃ q, truediv a b = Ok q.
Proof.
  intros Ha Hb.
  destruct (truediv_cases a b) as [Hok | Hraise]; [lia | done |].
  exfalso. revert Hraise. unfold truediv.
  destruct b as [| b | b]; [lia | | lia].
  destruct a as [| a | a]; [done | |].
  - change (Z.to_pos (Z.abs (Z.pos a))) with a.
    change (Z.to_pos (Z.abs (Z.pos b))) with b.
    change (Z.pos b <? 0) with false.
    pose proof (SFdiv_int_finite (Z.pos a <? 0) a b) as Hfin.
    destruct (SFdiv prec emax (S754_finite (Z.pos a <? 0) a 0)
                (S754_finite false b 0)) as [| s | |]; try done.
    intros _. apply (Hfin ltac:(lia) ltac:(lia) s). reflexivity.
  - change (Z.to_pos (Z.abs (Z.neg a))) with a.
    change (Z.to_pos (Z.abs (Z.pos b))) with b.
    change (Z.pos b <? 0) with false.
    pose proof (SFdiv_int_finite (Z.neg a <? 0) a b) as Hfin.
    destruct (SFdiv prec emax (S754_finite (Z.neg a <? 0) a 0)
                (S754_finite false b 0)) as [| s | |]; try done.
    intros _. apply (Hfin ltac:(lia) ltac:(lia) s). reflexivity.
Qed.

(** ** The three paths of [on_end] *)

Section BridgeFacts.

Variable SpanAttributes : SemConv.

Lemma on_end_filtered (span : Span.t) (w : World) :
  Span.name span ∉ span_names (this w) →
  on_end SpanAttributes span w = (Ok tt, w).
Proof.
  intros Hout. unfold on_end, bind, get_self. simpl.
  rewrite bool_decide_eq_false_2 by done. reflexivity.
Qed.

Lemma on_end_falsy_time (span : Span.t) (w : World) :
  truthy (Span._start_time span) = false ∨
  truthy (Span._end_time span) = false →
  on_end SpanAttributes span w = (Ok tt, w).
Proof.
  intros Hfalsy. unfold on_end, bind, get_self. simpl.
  destruct (bool_decide (Span.name span ∈ span_names (this w))); simpl;
    [| reflexivity].
  destruct Hfalsy as [-> | ->]; simpl; [reflexivity |].
  rewrite orb_true_r. reflexivity.
Qed.

Lemma on_end_measured (span : Span.t) (w : World) (s e : Z) :
  Span.name span ∈ span_names (this w) →
  Span._start_time span = Some s →
  Span._end_time span = Some e →
  s ≠ 0 → e ≠ 0 →
  on_end SpanAttributes span w =
    match truediv (e - s) 1000000 with
    | Ok q => (Ok tt, after_record SpanAttributes w q span)
    | Raise x => (Raise x, w)
    end.
Proof.
  intros Hin Hs He Hs0 He0. unfold on_end, bind, get_self. simpl.
  rewrite bool_decide_eq_true_2 by done. simpl.
  rewrite Hs, He. simpl.
  apply Z.eqb_neq in Hs0, He0. rewrite Hs0, He0. simpl.
  destruct (truediv (e - s) 1000000) as [q | x]; reflexivity.
Qed.

(** Every span takes one of the three paths. *)
Lemma on_end_cases (span : Span.t) (w : World) :
  on_end SpanAttributes span w = (Ok tt, w) ∨
  (∃ q, on_end SpanAttributes span w =
          (Ok tt, after_record SpanAttributes w q span)) ∨
  on_end SpanAttributes span w = (Raise OverflowError, w).
Proof.
  destruct (decide (Span.name span ∈ span_names (this w))) as [Hin | Hout];
    [| left; by apply on_end_filtered].
  destruct (truthy (Span._start_time span)) eqn:Hs;
    [| left; apply on_end_falsy_time; by left].
  destruct (truthy (Span._end_time span)) eqn:He;
    [| left; apply on_end_falsy_time; by right].
  apply truthy_Some in Hs as (s & Hs & Hs0).
  apply truthy_Some in He as (e & He & He0).
  rewrite (on_end_measured span w s e) by done.
  destruct (truediv_cases (e - s) 1000000) as [[q ->] | ->]; [done | |].
  - right; left. by exists q.
  - by right; right.
Qed.

Lemma metric_attributes_dom (span : Span.t) :
  dom (metric_attributes SpanAttributes span) =
    ({["http.method"; "http.route"; "http.status_code"; "http.flavor"]}
       : gset string).
Proof.
  unfold metric_attributes. rewrite !dom_insert_L, dom_empty_L. set_solver.
Qed.

End BridgeFacts.

(** ** The bridge: [on_end] *)

(** C1, amended. For every span whose name is in the allow-list and whose
    start and end times are both present and nonzero, [on_end] returns
    normally after exactly one record call on the processor's histogram;
    the amount of that call is the Python quotient
    [(end_time_ns - start_time_ns) / 1_000_000], unclamped: it is negative
    exactly when the end time is before the start time. The only other
    outcome is an [OverflowError] of the division with nothing recorded,
    which needs timestamps at least [2 ^ 256] ns apart. *)
Theorem on_end_records_latency
    (sc : SemConv) (span : Span.t) (w : World) (s e : Z) :
  Span.name span ∈ span_names (this w) →
  Span._start_time span = Some s →
  Span._end_time span = Some e →
  s ≠ 0 → e ≠ 0 →
  match truediv (e - s) 1000000 with
  | Ok q =>
      on_end sc span w =
        (Ok tt,
         {| this := this w;
            recorded :=
              recorded w ++
              [Measurement.mk (request_latency_histogram (this w)) q
                 (metric_attributes sc span)] |}) ∧
      signbit q = (e <? s)
  | Raise x =>
      x = OverflowError ∧ 2 ^ 256 ≤ Z.abs (e - s) ∧
      on_end sc span w = (Raise x, w)
  end.
Proof.
  intros Hin Hs He Hs0 He0.
  rewrite (on_end_measured sc span w s e) by done.
  destruct (truediv (e - s) 1000000) as [q | x] eqn:Hdiv.
  - split; [reflexivity |].
    rewrite (truediv_sign (e - s) 1000000 q) by done.
    destruct (Z.ltb_spec (e - s) 0), (Z.ltb_spec e s); lia || done.
  - destruct (truediv_cases (e - s) 1000000) as [[q Hq] | Hraise]; [done | |];
      rewrite Hdiv in *; [done |].
    injection Hraise as ->. split; [done |]. split; [| done].
    destruct (Z.lt_ge_cases (Z.abs (e - s)) (2 ^ 256)) as [Hsmall | Hbig];
      [| done].
    destruct (truediv_finite (e - s) 1000000 Hsmall) as [q Hq]; [lia |].
    rewrite Hdiv in Hq. done.
Qed.

(** Scenario D: start 10,000,000 ns, end 5,000,000 ns, one sample of
    amount -5.0. *)
Lemma on_end_records_latency_witness :
  on_end otel_semconv (ping_span (Some 10000000) (Some 5000000)) ping_world =
    (Ok tt,
     {| this := this ping_world;
        recorded :=
          [Measurement.mk (request_latency_histogram (this ping_world))
             float_neg_5
             (metric_attributes otel_semconv
                (ping_span (Some 10000000) (Some 5000000)))] |}) ∧
  signbit float_neg_5 = true.
Proof.
  apply (on_end_records_latency otel_semconv
           (ping_span (Some 10000000) (Some 5000000)) ping_world
           10000000 5000000).
  - vm_compute. reflexivity.
  - reflexivity.
  - reflexivity.
  - lia.
  - lia.
Defined.

(** C1 as written fails: a start time of 0 ns is present, yet nothing is
    recorded; and a present pair of timestamps whose quotient leaves the
    float range makes the division raise. *)
Lemma on_end_present_times_counterexample :
  (let span := ping_span (Some 0) (Some 5000000) in
   Span.name span ∈ span_names (this ping_world) ∧
   is_Some (Span._start_time span) ∧ is_Some (Span._end_time span) ∧
   ¬ ∃ m, recorded (on_end otel_semconv span ping_world).2
          = recorded ping_world ++ [m]) ∧
  (let span := ping_span (Some 1) (Some (10 ^ 400)) in
   Span.name span ∈ span_names (this ping_world) ∧
   is_Some (Span._start_time span) ∧ is_Some (Span._end_time span) ∧
   on_end otel_semconv span ping_world = (Raise OverflowError, ping_world)).
Proof.
  split; cbv zeta.
  - split; [vm_compute; reflexivity |].
    split; [by eexists |]. split; [by eexists |].
    rewrite on_end_falsy_time by (left; reflexivity).
    simpl. intros [m Hm]. discriminate Hm.
  - split; [vm_compute; reflexivity |].
    split; [by eexists |]. split; [by eexists |].
    rewrite (on_end_measured otel_semconv _ _ 1 (10 ^ 400));
      [| vm_compute; reflexivity | reflexivity | reflexivity | lia | lia].
    replace (truediv (10 ^ 400 - 1) 1000000) with
      (@Raise float OverflowError) by (vm_compute; reflexivity).
    reflexivity.
Qed.

(** C2. A span whose name is not a member of the allow-list makes
    [on_end] return normally with the world unchanged: no record call,
    no change of the processor. Membership in a [gset string] is
    equality with one of its elements. *)
Theorem on_end_not_allow_listed (sc : SemConv) (span : Span.t) (w : World) :
  (∀ allowed, allowed ∈ span_names (this w) → allowed ≠ Span.name span) →
  on_end sc span w = (Ok tt, w).
Proof.
  intros Hne. apply on_end_filtered. intros Hin. by apply (Hne _ Hin).
Qed.

(** Scenario B: "GET /other" against the allow-list {"GET /ping"}. *)
Lemma on_end_not_allow_listed_witness :
  on_end otel_semconv (Span.mk "GET /other" (Some 0) (Some 5000000) ∅)
    ping_world = (Ok tt, ping_world).
Proof.
  apply (on_end_not_allow_listed otel_semconv
           (Span.mk "GET /other" (Some 0) (Some 5000000) ∅) ping_world).
  intros allowed Hin. simpl in Hin. apply elem_of_singleton in Hin.
  rewrite Hin.
  discriminate.
Defined.

(** C3. A span with an absent start time or an absent end time makes
    [on_end] return normally with the world unchanged, whether or not its
    name is in the allow-list. *)
Theorem on_end_missing_time (sc : SemConv) (span : Span.t) (w : World) :
  Span._start_time span = None ∨ Span._end_time span = None →
  on_end sc span w = (Ok tt, w).
Proof.
  intros [Hs | He]; apply on_end_falsy_time.
  - left. rewrite Hs. apply truthy_None.
  - right. rewrite He. apply truthy_None.
Qed.

(** Scenario C: start 0, end [None]. *)
Lemma on_end_missing_time_witness :
  on_end otel_semconv (ping_span (Some 0) None) ping_world
  = (Ok tt, ping_world).
Proof.
  apply (on_end_missing_time otel_semconv (ping_span (Some 0) None) ping_world).
  right. reflexivity.
Defined.

(** C9. An allow-listed span whose start time or end time is present but
    equal to 0 is dropped exactly like one with an absent timestamp. *)
Theorem on_end_zero_time (sc : SemConv) (span : Span.t) (w : World) :
  Span.name span ∈ span_names (this w) →
  Span._start_time span = Some 0 ∨ Span._end_time span = Some 0 →
  on_end sc span w = (Ok tt, w).
Proof.
  intros _ [Hs | He]; apply on_end_falsy_time.
  - left. rewrite Hs. apply truthy_zero.
  - right. rewrite He. apply truthy_zero.
Qed.

Lemma on_end_zero_time_witness :
  on_end otel_semconv (ping_span (Some 0) (Some 5000000)) ping_world
  = (Ok tt, ping_world) ∧
  on_end otel_semconv (ping_span (Some 7) (Some 0)) ping_world
  = (Ok tt, ping_world).
Proof.
  split.
  - apply (on_end_zero_time otel_semconv
             (ping_span (Some 0) (Some 5000000)) ping_world).
    + vm_compute. reflexivity.
    + left. reflexivity.
  - apply (on_end_zero_time otel_semconv
             (ping_span (Some 7) (Some 0)) ping_world).
    + vm_compute. reflexivity.
    + right. reflexivity.
Defined.

(** C10. [on_end] never changes the processor: its allow-list and its
    histogram reference are the same after the call as before, for every
    span; and the log of record calls is either unchanged or longer by
    exactly one call, made on the processor's own histogram. *)
Theorem on_end_frame (sc : SemConv) (span : Span.t) (w : World) :
  let w' := (on_end sc span w).2 in
  this w' = this w ∧
  span_names (this w') = span_names (this w) ∧
  request_latency_histogram (this w') = request_latency_histogram (this w) ∧
  (recorded w' = recorded w ∨
   ∃ m, recorded w' = recorded w ++ [m] ∧
        Measurement.instrument m = request_latency_histogram (this w)).
Proof.
  cbv zeta.
  destruct (on_end_cases sc span w) as [-> | [[q ->] | ->]]; simpl.
  - repeat split; by left.
  - repeat split. right. eexists. split; reflexivity.
  - repeat split; by left.
Qed.

(** C4 as written fails: in scenario A the start time is 0 ns, which the
    validity check treats as absent, so no sample is recorded. *)
Lemma scenario_A_counterexample :
  ¬ ∃ m,
      recorded
        (on_end otel_semconv (ping_span (Some 0) (Some 5000000)) ping_world).2
      = [m] ∧
      Measurement.amount m = float_5.
Proof.
  rewrite on_end_falsy_time by (left; reflexivity).
  simpl. intros (m & Hm & _). discriminate Hm.
Qed.

(** C4, amended. The route table [("/ping", {GET})] gives the allow-list
    {"GET /ping"}. With it, a span named "GET /ping" with start 0 ns and
    end 5,000,000 ns records nothing; the same 5 ms interval with a
    nonzero start (1,000,000 ns to 6,000,000 ns) records exactly one
    sample, of amount 5.0. *)
Theorem scenario_A_nonzero_start (sc : SemConv) :
  spans_to_emit_as_metrics [Route.mk "/ping" ["GET"]] = {["GET /ping"]} ∧
  on_end sc (ping_span (Some 0) (Some 5000000)) ping_world
  = (Ok tt, ping_world) ∧
  on_end sc (ping_span (Some 1000000) (Some 6000000)) ping_world
  = (Ok tt,
     {| this := this ping_world;
        recorded :=
          [Measurement.mk (request_latency_histogram (this ping_world))
             float_5
             (metric_attributes sc
                (ping_span (Some 1000000) (Some 6000000)))] |}).
Proof.
  split; [| split].
  - unfold spans_to_emit_as_metrics. simpl. set_solver.
  - apply on_end_falsy_time. left. reflexivity.
  - rewrite (on_end_measured sc _ _ 1000000 6000000);
      [| set_solver | reflexivity | reflexivity | lia | lia].
    replace (truediv (6000000 - 1000000) 1000000) with (Ok float_5)
      by (vm_compute; reflexivity).
    reflexivity.
Qed.

(** C6 as written fails on its example: a matched span whose timestamps
    are both present, with only the HTTP-method attribute set, yields no
    sample when its start time is 0 ns; nor does it when the timestamps
    are so far apart that the division overflows. *)
Lemma on_end_dimensions_counterexample :
  (let span :=
     Span.mk "GET /ping" (Some 0) (Some 5000000)
       {["http.method" := AStr "GET"]} in
   Span.name span ∈ span_names (this ping_world) ∧
   is_Some (Span._start_time span) ∧ is_Some (Span._end_time span) ∧
   ¬ ∃ m, recorded (on_end otel_semconv span ping_world).2
          = recorded ping_world ++ [m]) ∧
  (let span :=
     Span.mk "GET /ping" (Some 1) (Some (10 ^ 400))
       {["http.method" := AStr "GET"]} in
   Span.name span ∈ span_names (this ping_world) ∧
   is_Some (Span._start_time span) ∧ is_Some (Span._end_time span) ∧
   on_end otel_semconv span ping_world = (Raise OverflowError, ping_world)).
Proof.
  split; cbv zeta.
  - split; [vm_compute; reflexivity |].
    split; [by eexists |]. split; [by eexists |].
    rewrite on_end_falsy_time by (left; reflexivity).
    simpl. intros [m Hm]. discriminate Hm.
  - split; [vm_compute; reflexivity |].
    split; [by eexists |]. split; [by eexists |].
    rewrite (on_end_measured otel_semconv _ _ 1 (10 ^ 400));
      [| vm_compute; reflexivity | reflexivity | reflexivity | lia | lia].
    replace (truediv (10 ^ 400 - 1) 1000000) with
      (@Raise float OverflowError) by (vm_compute; reflexivity).
    reflexivity.
Qed.

(** C6, amended. Every sample that [on_end] records, for whatever span,
    carries a dictionary with exactly the four keys "http.method",
    "http.route", "http.status_code" and "http.flavor"; each is bound to
    the result of looking up its own standard key in the span's
    attributes, so a missing key gives [None] for that dimension alone,
    with no error and no substitute value. A matched span whose
    timestamps are both present and nonzero yields one such sample (when
    the HTTP-method attribute is the only one set, that dimension holds
    its value and the other three are [None]), unless the division
    overflows, which needs timestamps at least [2 ^ 256] ns apart. *)
Theorem on_end_dimensions (sc : SemConv) (span : Span.t) (w : World) :
  (∀ m,
     recorded (on_end sc span w).2 = recorded w ++ [m] →
     dom (Measurement.attributes m)
     = ({["http.method"; "http.route"; "http.status_code"; "http.flavor"]}
          : gset string) ∧
     Measurement.attributes m !! "http.method"
     = Some (Span.attributes span !! HTTP_METHOD sc) ∧
     Measurement.attributes m !! "http.route"
     = Some (Span.attributes span !! HTTP_ROUTE sc) ∧
     Measurement.attributes m !! "http.status_code"
     = Some (Span.attributes span !! HTTP_STATUS_CODE sc) ∧
     Measurement.attributes m !! "http.flavor"
     = Some (Span.attributes span !! HTTP_FLAVOR sc)) ∧
  (∀ s e,
     Span.name span ∈ span_names (this w) →
     Span._start_time span = Some s →
     Span._end_time span = Some e →
     s ≠ 0 → e ≠ 0 →
     match truediv (e - s) 1000000 with
     | Ok q =>
         ∃ m,
           on_end sc span w
           = (Ok tt, {| this := this w; recorded := recorded w ++ [m] |}) ∧
           ∀ v,
             Span.attributes span = {[HTTP_METHOD sc := v]} →
             HTTP_ROUTE sc ≠ HTTP_METHOD sc →
             HTTP_STATUS_CODE sc ≠ HTTP_METHOD sc →
             HTTP_FLAVOR sc ≠ HTTP_METHOD sc →
             Measurement.attributes m
             = {["http.method" := Some v; "http.route" := None;
                 "http.status_code" := None; "http.flavor" := None]}
     | Raise x =>
         x = OverflowError ∧ 2 ^ 256 ≤ Z.abs (e - s) ∧
         on_end sc span w = (Raise x, w)
     end).
Proof.
  split.
  - intros m Hm.
    assert (Hshape : Measurement.attributes m = metric_attributes sc span).
    { destruct (on_end_cases sc span w) as [Hrun | [[q Hrun] | Hrun]];
        rewrite Hrun in Hm; simpl in Hm.
      - apply (f_equal length) in Hm. rewrite length_app in Hm.
        simpl in Hm. lia.
      - apply app_inv_head in Hm. by injection Hm as <-.
      - apply (f_equal length) in Hm. rewrite length_app in Hm.
        simpl in Hm. lia. }
    rewrite Hshape. split; [apply metric_attributes_dom |].
    unfold metric_attributes. repeat split; by simplify_map_eq.
  - intros s e Hin Hs He Hs0 He0.
    rewrite (on_end_measured sc span w s e) by done.
    destruct (truediv (e - s) 1000000) as [q | x] eqn:Hdiv.
    + eexists. split; [reflexivity |]. simpl.
      intros v Hattrs Hroute Hstatus Hflavor.
      unfold metric_attributes. rewrite Hattrs.
      rewrite lookup_singleton_eq, !lookup_singleton_ne by done.
      apply map_eq. intros key.
      destruct (decide (key = "http.flavor")) as [-> | ?];
        [by simplify_map_eq |].
      destruct (decide (key = "http.status_code")) as [-> | ?];
        [by simplify_map_eq |].
      destruct (decide (key = "http.route")) as [-> | ?];
        [by simplify_map_eq |].
      destruct (decide (key = "http.method")) as [-> | ?];
        by simplify_map_eq.
    + destruct (truediv_cases (e - s) 1000000) as [[q Hq] | Hraise];
        [done | |]; rewrite Hdiv in *; [done |].
      injection Hraise as ->. split; [done |]. split; [| done].
      destruct (Z.lt_ge_cases (Z.abs (e - s)) (2 ^ 256)) as [Hsmall | Hbig];
        [| done].
      destruct (truediv_finite (e - s) 1000000 Hsmall) as [q Hq]; [lia |].
      rewrite Hdiv in Hq. done.
Qed.

(** A matched span with nonzero timestamps that carries only the
    HTTP-method attribute. *)
Lemma on_end_dimensions_witness :
  ∃ m,
    on_end otel_semconv
      (Span.mk "GET /ping" (Some 1000000) (Some 6000000)
         {["http.method" := AStr "GET"]})
      ping_world
    = (Ok tt, {| this := this ping_world; recorded := [m] |}) ∧
    Measurement.attributes m
    = {["http.method" := Some (AStr "GET"); "http.route" := None;
        "http.status_code" := None; "http.flavor" := None]}.
Proof.
  pose proof (proj2 (on_end_dimensions otel_semconv
                (Span.mk "GET /ping" (Some 1000000) (Some 6000000)
                   {["http.method" := AStr "GET"]})
                ping_world) 1000000 6000000) as Hrun.
  replace (truediv (6000000 - 1000000) 1000000) with (Ok float_5) in Hrun
    by (vm_compute; reflexivity).
  destruct Hrun as (m & Hrun & Honly);
    [vm_compute; reflexivity | reflexivity | reflexivity | lia | lia |].
  exists m. split; [exact Hrun |].
  apply (Honly (AStr "GET")); [reflexivity | discriminate ..].
Defined.

(** ** The registrar: the allow-list loop *)

Section AllowList.

Implicit Types (routes : list Route.t) (acc : gset string) (x : string).

Lemma add_methods_spec (methods : list string) (path : string) acc x :
  x ∈ foldl (λ acc method, acc ∪ {[ method +:+ " " +:+ path ]}) acc methods
  ↔ x ∈ acc ∨ ∃ method, method ∈ methods ∧ x = method +:+ " " +:+ path.
Proof.
  revert acc. induction methods as [| method methods IH]; intros acc; simpl.
  - split; [by left |]. intros [Hacc | (m & Hm & _)]; [done |].
    by apply elem_of_nil in Hm.
  - rewrite IH, elem_of_union, elem_of_singleton. split.
    + intros [[Hacc | ->] | (m & Hm & ->)].
      * by left.
      * right. exists method. split; [apply list_elem_of_here | done].
      * right. exists m. split; [by apply list_elem_of_further | done].
    + intros [Hacc | (m & Hm & ->)]; [by left; left |].
      apply elem_of_cons in Hm as [-> | Hm]; [by left; right |].
      right. by exists m.
Qed.

Lemma add_routes_spec routes acc x :
  x ∈ foldl (λ acc route,
               foldl (λ acc method,
                        acc ∪ {[ method +:+ " " +:+ Route.path route ]})
                     acc (Route.methods route))
            acc routes
  ↔ x ∈ acc ∨
    ∃ route method,
      route ∈ routes ∧ method ∈ Route.methods route ∧
      x = method +:+ " " +:+ Route.path route.
Proof.
  revert acc. induction routes as [| route routes IH]; intros acc; simpl.
  - split; [by left |]. intros [Hacc | (r & m & Hr & _)]; [done |].
    by apply elem_of_nil in Hr.
  - rewrite IH, add_methods_spec. split.
    + intros [[Hacc | (m & Hm & ->)] | (r & m & Hr & Hm & ->)].
      * by left.
      * right. exists route, m. split; [apply list_elem_of_here | done].
      * right. exists r, m. split; [by apply list_elem_of_further | done].
    + intros [Hacc | (r & m & Hr & Hm & ->)]; [by left; left |].
      apply elem_of_cons in Hr as [-> | Hr].
      * left; right. by exists m.
      * right. by exists r, m.
Qed.

(** The allow-list holds one string per (route, method) pair, composed
    of the method and the path as they are. *)
Lemma spans_to_emit_as_metrics_spec routes x :
  x ∈ spans_to_emit_as_metrics routes
  ↔ ∃ route method,
      route ∈ routes ∧ method ∈ Route.methods route ∧
      x = method +:+ " " +:+ Route.path route.
Proof.
  unfold spans_to_emit_as_metrics. rewrite add_routes_spec. split.
  - intros [Hempty | Hpair]; [| done]. by apply not_elem_of_empty in Hempty.
  - intros Hpair. by right.
Qed.

Lemma allow_list_uppercased_spec routes x :
  x ∈ allow_list_uppercased routes
  ↔ ∃ route method,
      route ∈ routes ∧ method ∈ Route.methods route ∧
      x = str_upper method +:+ " " +:+ Route.path route.
Proof.
  unfold allow_list_uppercased. rewrite elem_of_list_to_set, list_elem_of_bind.
  split.
  - intros (route & Hx & Hroute).
    apply list_elem_of_bind in Hx as (method & Hx & Hmethod).
    apply list_elem_of_singleton in Hx. by exists route, method.
  - intros (route & method & Hroute & Hmethod & ->).
    exists route. split; [| done].
    apply list_elem_of_bind. exists method. split; [| done].
    by apply list_elem_of_singleton.
Qed.

(** Reordering keeps the (path, method) pairs, in both directions. *)
Lemma reordered_pairs routes routes' (path method : string) :
  reordered routes routes' →
  (∃ route, route ∈ routes ∧ method ∈ Route.methods route ∧
            Route.path route = path)
  ↔ (∃ route', route' ∈ routes' ∧ method ∈ Route.methods route' ∧
               Route.path route' = path).
Proof.
  intros (shuffled & Hperm & Hsame).
  setoid_rewrite Hperm. clear routes Hperm.
  induction Hsame as [| r r' l l' [Hpath Hmethods] _ IH].
  - split; intros (route & Hin & _); by apply elem_of_nil in Hin.
  - split.
    + intros (route & Hin & Hm & <-).
      apply elem_of_cons in Hin as [-> | Hin].
      * exists r'. split; [apply list_elem_of_here |].
        split; [by rewrite <- Hmethods | done].
      * destruct IH as [IH _].
        destruct IH as (route' & Hin' & Hm' & Hp'); [by exists route |].
        exists route'. split; [by apply list_elem_of_further | done].
    + intros (route' & Hin & Hm & <-).
      apply elem_of_cons in Hin as [-> | Hin].
      * exists r. split; [apply list_elem_of_here |].
        split; [by rewrite Hmethods | done].
      * destruct IH as [_ IH].
        destruct IH as (route & Hin' & Hm' & Hp'); [by exists route' |].
        exists route. split; [by apply list_elem_of_further | done].
Qed.

End AllowList.



(** The loop itself composes the method as it finds it: the uppercase
    methods are the framework's doing, not the loop's. *)
Example allow_list_keeps_case :
  spans_to_emit_as_metrics [Route.mk "/ping" ["get"]] = {["get /ping"]}.
Proof. unfold spans_to_emit_as_metrics. simpl. set_solver. Qed.

(** C7. With an empty route table the allow-list is empty and set-up
    installs the export processor alone; whatever spans end afterwards,
    the log of record calls stays as it was. A bridge built on the empty
    allow-list would not record either. *)
Theorem empty_route_table_no_op
    (sc : SemConv) (spans : list Span.t) (calls : list Measurement.t) :
  spans_to_emit_as_metrics [] = ∅ ∧
  _setup_app [] = [BatchSpanProcessor] ∧
  serve sc (_setup_app []) spans calls = ([BatchSpanProcessor], calls) ∧
  (∀ span,
     on_end sc span {| this := __init__ ∅; recorded := calls |}
     = (Ok tt, {| this := __init__ ∅; recorded := calls |})).
Proof.
  assert (Hsetup : _setup_app [] = [BatchSpanProcessor]).
  { unfold _setup_app, setup_otel, spans_to_emit_as_metrics. simpl.
    rewrite bool_decide_eq_true_2 by done. reflexivity. }
  split; [reflexivity |]. split; [exact Hsetup |]. split.
  - rewrite Hsetup. induction spans as [| span later IH]; simpl; done.
  - intros span. apply on_end_filtered. simpl. apply not_elem_of_empty.
Qed.

(** By contrast, the route table [("/ping", {GET})] installs the bridge,
    and a "GET /ping" span of 5 ms then reaches the histogram. *)
Example ping_route_table_records :
  _setup_app [Route.mk "/ping" ["GET"]]
  = [BatchSpanProcessor; MetricProcessor (__init__ {["GET /ping"]})] ∧
  Measurement.amount
    <$> (serve otel_semconv (_setup_app [Route.mk "/ping" ["GET"]])
           [ping_span (Some 1000000) (Some 6000000)] []).2
  = [float_5].
Proof. split; vm_compute; reflexivity. Qed.

(** C8. The allow-list depends on the contents of the route table only:
    two enumerations of the same (path, methods) pairs, whatever the
    order of the routes and of the methods of each route, give the same
    set. The allow-list is a function of the table, so building it again
    from the same table gives the same set as well. *)
Theorem allow_list_order_independent (routes routes' : list Route.t) :
  reordered routes routes' →
  spans_to_emit_as_metrics routes = spans_to_emit_as_metrics routes'.
Proof.
  intros Hsame. apply set_eq. intros x. rewrite !spans_to_emit_as_metrics_spec. split.
  - intros (route & method & Hr & Hm & ->).
    destruct (proj1 (reordered_pairs routes routes' (Route.path route) method
                       Hsame)) as (route' & Hr' & Hm' & Hp');
      [by exists route |].
    exists route', method. by rewrite Hp'.
  - intros (route' & method & Hr' & Hm' & ->).
    destruct (proj2 (reordered_pairs routes routes' (Route.path route') method
                       Hsame)) as (route & Hr & Hm & Hp);
      [by exists route' |].
    exists route, method. by rewrite Hp.
Qed.

Lemma allow_list_order_independent_witness :
  spans_to_emit_as_metrics
    [Route.mk "/hash" ["POST"]; Route.mk "/docs" ["GET"; "HEAD"]]
  = spans_to_emit_as_metrics
      [Route.mk "/docs" ["HEAD"; "GET"]; Route.mk "/hash" ["POST"]].
Proof.
  apply (allow_list_order_independent
           [Route.mk "/hash" ["POST"]; Route.mk "/docs" ["GET"; "HEAD"]]
           [Route.mk "/docs" ["HEAD"; "GET"]; Route.mk "/hash" ["POST"]]).
  exists [Route.mk "/docs" ["GET"; "HEAD"]; Route.mk "/hash" ["POST"]].
  split.
  - apply perm_swap.
  - repeat constructor.
Defined.


(** * Further properties of the bridge *)

(** X1. [on_end] returns normally for every span whose timestamps, where
    present, are below [2 ^ 255] in magnitude. Whatever the span, the
    only exception it can raise is [OverflowError] (never a [TypeError]
    on an absent timestamp, never a [ZeroDivisionError]), and a call that
    raises has recorded nothing. *)
Theorem on_end_no_exception (sc : SemConv) (span : Span.t) (w : World) :
  ((∀ t, Span._start_time span = Some t ∨ Span._end_time span = Some t →
         Z.abs t < 2 ^ 255) →
   (on_end sc span w).1 = Ok tt) ∧
  (∀ x, (on_end sc span w).1 = Raise x →
        x = OverflowError ∧ (on_end sc span w).2 = w).
Proof.
  split.
  - intros Hrange.
    destruct (decide (Span.name span ∈ span_names (this w))) as [Hin | Hout];
      [| by rewrite on_end_filtered].
    destruct (truthy (Span._start_time span)) eqn:Hs;
      [| rewrite on_end_falsy_time; [done | by left]].
    destruct (truthy (Span._end_time span)) eqn:He;
      [| rewrite on_end_falsy_time; [done | by right]].
    apply truthy_Some in Hs as (s & Hs & Hs0).
    apply truthy_Some in He as (e & He & He0).
    rewrite (on_end_measured sc span w s e) by done.
    pose proof (Hrange s (or_introl Hs)) as Hsb.
    pose proof (Hrange e (or_intror He)) as Heb.
    destruct (truediv_finite (e - s) 1000000) as [q ->]; [| lia | done].
    replace (2 ^ 256) with (2 * 2 ^ 255) by reflexivity. lia.
  - intros x Hx.
    destruct (on_end_cases sc span w) as [Hok | [[q Hok] | Hraise]];
      rewrite ?Hok, ?Hraise in *; simpl in *; try discriminate.
    injection Hx as <-. done.
Qed.

Lemma on_end_no_exception_witness :
  (on_end otel_semconv
     (ping_span (Some 1762200000000000000) (Some 1762200000004200000))
     ping_world).1 = Ok tt.
Proof.
  apply (proj1 (on_end_no_exception otel_semconv
                  (ping_span (Some 1762200000000000000)
                     (Some 1762200000004200000)) ping_world)).
  intros t [[= <-] | [= <-]]; vm_compute; reflexivity.
Defined.

(** X2. A span that starts and ends at the same nonzero instant is
    recorded, with amount [+0.0]: only a zero timestamp is dropped, not a
    zero duration. *)
Theorem on_end_zero_duration
    (sc : SemConv) (span : Span.t) (w : World) (t : Z) :
  Span.name span ∈ span_names (this w) →
  Span._start_time span = Some t →
  Span._end_time span = Some t →
  t ≠ 0 →
  on_end sc span w =
    (Ok tt,
     {| this := this w;
        recorded :=
          recorded w ++
          [Measurement.mk (request_latency_histogram (this w))
             (S754_zero false) (metric_attributes sc span)] |}).
Proof.
  intros Hin Hs He Ht.
  rewrite (on_end_measured sc span w t t) by done.
  rewrite Z.sub_diag. reflexivity.
Qed.

Lemma on_end_zero_duration_witness :
  Measurement.amount
    <$> recorded (on_end otel_semconv (ping_span (Some 42) (Some 42))
                    ping_world).2
  = [S754_zero false].
Proof.
  rewrite (on_end_zero_duration otel_semconv (ping_span (Some 42) (Some 42))
             ping_world 42).
  - reflexivity.
  - vm_compute. reflexivity.
  - reflexivity.
  - reflexivity.
  - lia.
Defined.

(** X3. The sample depends on the timestamps through their difference
    only: moving the start and the end of a matched span by the same
    offset, both staying nonzero, gives the same outcome. *)
Theorem on_end_shift_invariant
    (sc : SemConv) (w : World) (name : string)
    (attributes : gmap string AttributeValue) (s e d : Z) :
  name ∈ span_names (this w) →
  s ≠ 0 → e ≠ 0 → s + d ≠ 0 → e + d ≠ 0 →
  on_end sc (Span.mk name (Some (s + d)) (Some (e + d)) attributes) w
  = on_end sc (Span.mk name (Some s) (Some e) attributes) w.
Proof.
  intros Hin Hs He Hsd Hed.
  rewrite (on_end_measured sc _ w (s + d) (e + d)) by done.
  rewrite (on_end_measured sc _ w s e) by done.
  replace (e + d - (s + d)) with (e - s) by lia.
  reflexivity.
Qed.

Lemma on_end_shift_invariant_witness :
  on_end otel_semconv (ping_span (Some (1000000 + 7)) (Some (6000000 + 7)))
    ping_world
  = on_end otel_semconv (ping_span (Some 1000000) (Some 6000000)) ping_world.
Proof.
  apply (on_end_shift_invariant otel_semconv ping_world "GET /ping" ∅
           1000000 6000000 7).
  - vm_compute. reflexivity.
  - lia.
  - lia.
  - lia.
  - lia.
Defined.

(** X4. The bridge does not deduplicate: handing the same matched, valid
    span to [on_end] [n] times appends [n] equal samples, and the
    processor is still the same. *)
Theorem on_end_repeated
    (sc : SemConv) (span : Span.t) (w : World) (s e : Z) (q : float)
    (n : nat) :
  Span.name span ∈ span_names (this w) →
  Span._start_time span = Some s →
  Span._end_time span = Some e →
  s ≠ 0 → e ≠ 0 →
  truediv (e - s) 1000000 = Ok q →
  Nat.iter n (λ w, (on_end sc span w).2) w =
    {| this := this w;
       recorded :=
         recorded w ++
         replicate n
           (Measurement.mk (request_latency_histogram (this w)) q
              (metric_attributes sc span)) |}.
Proof.
  intros Hin Hs He Hs0 He0 Hq. induction n as [| n IH].
  - simpl. rewrite app_nil_r. by destruct w.
  - rewrite Nat.iter_succ, IH.
    rewrite (on_end_measured sc span _ s e) by done. rewrite Hq. simpl.
    unfold after_record. simpl. f_equal.
    rewrite <- app_assoc. f_equal.
    change (?m :: replicate n ?m) with (replicate (S n) m).
    by rewrite <- replicate_S_end.
Qed.

Lemma on_end_repeated_witness :
  Measurement.amount
    <$> recorded
          (Nat.iter 3
             (λ w, (on_end otel_semconv
                      (ping_span (Some 1000000) (Some 6000000)) w).2)
             ping_world)
  = [float_5; float_5; float_5].
Proof.
  rewrite (on_end_repeated otel_semconv
             (ping_span (Some 1000000) (Some 6000000)) ping_world
             1000000 6000000 float_5 3).
  - reflexivity.
  - vm_compute. reflexivity.
  - reflexivity.
  - reflexivity.
  - lia.
  - lia.
  - vm_compute. reflexivity.
Defined.

(** * Further properties of the registrar *)

Lemma has_space_append (a b : string) :
  has_space (a +:+ b) = has_space a || has_space b.
Proof.
  induction a as [| c a IH]; simpl; [done |].
  by rewrite IH, orb_assoc.
Qed.

(** A name splits at its first space: two space-free methods that give
    the same name are the same method, on the same path. *)
Lemma span_name_inj (m1 m2 p1 p2 : string) :
  has_space m1 = false → has_space m2 = false →
  m1 +:+ " " +:+ p1 = m2 +:+ " " +:+ p2 → m1 = m2 ∧ p1 = p2.
Proof.
  revert m2. induction m1 as [| c m1 IH]; intros [| c2 m2] H1 H2 Heq;
    simpl in *.
  - injection Heq as Heq. by subst.
  - injection Heq as Hc _. subst c2.
    by rewrite bool_decide_eq_true_2 in H2.
  - injection Heq as Hc _. subst c.
    by rewrite bool_decide_eq_true_2 in H1.
  - injection Heq as Hc Heq. subst c2.
    apply orb_false_elim in H1 as [_ H1]. apply orb_false_elim in H2 as [_ H2].
    destruct (IH m2 H1 H2 Heq) as [Hm Hp]. by subst.
Qed.

Lemma spans_to_emit_as_metrics_empty (routes : list Route.t) :
  spans_to_emit_as_metrics routes = ∅
  ↔ Forall (λ route, Route.methods route = []) routes.
Proof.
  rewrite Forall_forall. split.
  - intros Hempty route Hroute.
    destruct (Route.methods route) as [| method methods] eqn:Hm; [done |].
    exfalso. apply (not_elem_of_empty (C := gset string)
                      (method +:+ " " +:+ Route.path route)).
    rewrite <- Hempty. apply spans_to_emit_as_metrics_spec.
    exists route, method. rewrite Hm.
    split; [done |]. split; [apply list_elem_of_here | done].
  - intros Hall. apply set_eq. intros x.
    rewrite spans_to_emit_as_metrics_spec. split.
    + intros (route & method & Hr & Hm & _).
      rewrite (Hall route Hr) in Hm. by apply elem_of_nil in Hm.
    + intros Hx. by apply not_elem_of_empty in Hx.
Qed.

(** X5. The allow-list of a concatenated route table is the union of the
    allow-lists of its parts; so listing a table twice, or registering a
    route again, adds nothing. *)
Theorem allow_list_app (routes routes' : list Route.t) :
  spans_to_emit_as_metrics (routes ++ routes')
  = spans_to_emit_as_metrics routes ∪ spans_to_emit_as_metrics routes' ∧
  spans_to_emit_as_metrics (routes ++ routes)
  = spans_to_emit_as_metrics routes.
Proof.
  assert (Happ : ∀ l l',
             spans_to_emit_as_metrics (l ++ l')
             = spans_to_emit_as_metrics l ∪ spans_to_emit_as_metrics l').
  { intros l l'. apply set_eq. intros x.
    rewrite elem_of_union, !spans_to_emit_as_metrics_spec. split.
    - intros (route & method & Hr & Hm & ->).
      apply elem_of_app in Hr as [Hr | Hr]; [left | right];
        by exists route, method.
    - intros [(route & method & Hr & Hm & ->) | (route & method & Hr & Hm & ->)];
        exists route, method; rewrite elem_of_app; auto. }
  split; [apply Happ |]. rewrite Happ. apply union_idemp_L.
Qed.

(** X6. When no method of the table holds a space, the name
    "<method> <path>" is in the allow-list exactly when some route of
    that path accepts that method: different (method, path) pairs never
    share a name. *)
Theorem allow_list_no_collision
    (routes : list Route.t) (method path : string) :
  (∀ route m, route ∈ routes → m ∈ Route.methods route →
              has_space m = false) →
  has_space method = false →
  method +:+ " " +:+ path ∈ spans_to_emit_as_metrics routes
  ↔ ∃ route, route ∈ routes ∧ Route.path route = path ∧
             method ∈ Route.methods route.
Proof.
  intros Htokens Htoken. rewrite spans_to_emit_as_metrics_spec. split.
  - intros (route & m & Hr & Hm & Heq).
    apply span_name_inj in Heq as [-> ->]; [| done | by eapply Htokens].
    by exists route.
  - intros (route & Hr & <- & Hm). by exists route, method.
Qed.

Lemma allow_list_no_collision_witness :
  "GET /hash" ∉
    spans_to_emit_as_metrics
      [Route.mk "/hash" ["POST"]; Route.mk "/slow/and/unstable" ["GET"]].
Proof.
  intros Hin.
  apply (allow_list_no_collision
           [Route.mk "/hash" ["POST"]; Route.mk "/slow/and/unstable" ["GET"]]
           "GET" "/hash") in Hin as (route & Hr & Hp & Hm).
  - apply elem_of_cons in Hr as [-> | Hr].
    + simpl in Hm. apply list_elem_of_singleton in Hm. discriminate Hm.
    + apply list_elem_of_singleton in Hr. subst route. discriminate Hp.
  - intros route m Hr Hm.
    apply elem_of_cons in Hr as [-> | Hr].
    + apply list_elem_of_singleton in Hm. by subst m.
    + apply list_elem_of_singleton in Hr. subst route.
      apply list_elem_of_singleton in Hm. by subst m.
  - reflexivity.
Defined.

(** Without that condition two pairs can share a name. *)
Example allow_list_collision :
  spans_to_emit_as_metrics [Route.mk "/x" ["A B"]]
  = spans_to_emit_as_metrics [Route.mk "B /x" ["A"]].
Proof. unfold spans_to_emit_as_metrics. simpl. reflexivity. Qed.

(** X7. Set-up always installs the export processor first. It installs
    the bridge after it, built on the allow-list of the table, exactly
    when some route has at least one method; a table whose routes all
    have an empty method set gets no bridge, like the empty table. *)
Theorem setup_app_installs_bridge (routes : list Route.t) :
  _setup_app routes =
    if forallb (λ route, bool_decide (Route.methods route = [])) routes
    then [BatchSpanProcessor]
    else [BatchSpanProcessor;
          MetricProcessor (__init__ (spans_to_emit_as_metrics routes))].
Proof.
  unfold _setup_app, setup_otel.
  destruct (forallb _ routes) eqn:Hall.
  - rewrite bool_decide_eq_true_2; [done |].
    apply spans_to_emit_as_metrics_empty, Forall_forall.
    intros route Hr. apply list_elem_of_In in Hr.
    rewrite forallb_forall in Hall. specialize (Hall route Hr).
    by apply bool_decide_eq_true in Hall.
  - rewrite bool_decide_eq_false_2; [done |].
    intros Hempty. apply spans_to_emit_as_metrics_empty in Hempty.
    rewrite Forall_forall in Hempty.
    assert (Htrue : forallb (λ route, bool_decide (Route.methods route = []))
                      routes = true).
    { apply forallb_forall. intros route Hr. apply bool_decide_eq_true.
      apply Hempty. by apply list_elem_of_In. }
    congruence.
Qed.

(** * Start-up *)

Section StartupFacts.

Variable framework_routes : list Route.t.

Lemma add_api_routes_first (routes added : list Route.t)
    (others : list (list Route.t)) :
  foldl (Startup.add_api_route 0) (routes :: others) added
  = (routes ++ added) :: others.
Proof.
  revert routes. induction added as [| route added IH]; intros routes; simpl.
  - by rewrite app_nil_r.
  - rewrite IH, <- app_assoc. reflexivity.
Qed.

Lemma obtain_settled (fuel : nat) (r : Startup.request)
    (σ : Startup.Process) :
  Startup.settled σ →
  Startup.obtain framework_routes (S fuel) r σ
  = Startup.Returned (Some 0%nat) σ.
Proof.
  intros (Happ & Hloaded & Hapi). destruct r; simpl.
  - by rewrite Happ.
  - unfold Startup.import_api. by rewrite Hloaded, Hapi.
Qed.

Lemma obtain_all_settled (fuel : nat) (rs : list Startup.request)
    (σ : Startup.Process) :
  Startup.settled σ →
  Startup.obtain_all framework_routes (S fuel) rs σ
  = Some (replicate (length rs) (Some 0%nat), σ).
Proof.
  intros Hσ. induction rs as [| r rs IH]; [done |].
  cbn [Startup.obtain_all].
  rewrite (obtain_settled fuel r σ Hσ), IH. reflexivity.
Qed.

Lemma factory_run (fuel : nat) :
  Startup.get_or_create_app framework_routes (S (S fuel)) Startup.initial
  = Startup.Returned (Some 0%nat)
      {| Startup.app_instance := Some 0%nat;
         Startup.objects := [framework_routes ++ Startup.api_routes];
         Startup.api_loaded := true;
         Startup.api_app := Some 0%nat;
         Startup.providers :=
           [_setup_app (framework_routes ++ Startup.api_routes)];
         Startup.logging_setups := 1 |}.
Proof.
  unfold Startup.get_or_create_app.
  cbn -[setup_otel spans_to_emit_as_metrics Startup.api_routes foldl].
  rewrite add_api_routes_first. reflexivity.
Qed.

Lemma api_run (fuel : nat) :
  Startup.import_api (Startup.get_or_create_app framework_routes (S fuel))
    Startup.initial
  = Startup.Returned tt
      {| Startup.app_instance := Some 0%nat;
         Startup.objects := [framework_routes ++ Startup.api_routes];
         Startup.api_loaded := true;
         Startup.api_app := Some 0%nat;
         Startup.providers := [_setup_app framework_routes];
         Startup.logging_setups := 1 |}.
Proof.
  unfold Startup.get_or_create_app, Startup.import_api.
  cbn -[setup_otel spans_to_emit_as_metrics Startup.api_routes foldl].
  rewrite add_api_routes_first. reflexivity.
Qed.

End StartupFacts.

(** X8. Started through the factory, [get_or_create_app()] returns after
    a bounded depth of nested calls (the re-entrant call made by api.py
    finds the instance already assigned), having created one [FastAPI]
    object, loaded api.py onto it and run set-up once, after the
    decorators: the tracer provider carries the processors computed from
    the framework's routes followed by the six routes of api.py. *)
Theorem factory_first_startup (framework_routes : list Route.t) (fuel : nat) :
  (2 ≤ fuel)%nat →
  Startup.get_or_create_app framework_routes fuel Startup.initial
  = Startup.Returned (Some 0%nat)
      {| Startup.app_instance := Some 0%nat;
         Startup.objects := [framework_routes ++ Startup.api_routes];
         Startup.api_loaded := true;
         Startup.api_app := Some 0%nat;
         Startup.providers :=
           [_setup_app (framework_routes ++ Startup.api_routes)];
         Startup.logging_setups := 1 |}.
Proof.
  intros Hfuel. destruct fuel as [| [| fuel]]; [lia | lia |].
  apply factory_run.
Qed.

Lemma factory_first_startup_witness :
  Startup.get_or_create_app [Route.mk "/docs" ["GET"; "HEAD"]] 2
    Startup.initial
  = Startup.Returned (Some 0%nat)
      {| Startup.app_instance := Some 0%nat;
         Startup.objects :=
           [Route.mk "/docs" ["GET"; "HEAD"] :: Startup.api_routes];
         Startup.api_loaded := true;
         Startup.api_app := Some 0%nat;
         Startup.providers :=
           [_setup_app
              (Route.mk "/docs" ["GET"; "HEAD"] :: Startup.api_routes)];
         Startup.logging_setups := 1 |}.
Proof.
  apply (factory_first_startup [Route.mk "/docs" ["GET"; "HEAD"]] 2). lia.
Defined.

(** X9. When api.py is the module imported first, its
    [app = get_or_create_app()] runs set-up before any decorator has
    run, and the import inside [_setup_app] finds api.py already in
    [sys.modules]: the processors are computed from the framework's own
    routes alone, although the app ends up with the six routes of api.py
    as well. *)
Theorem api_first_startup (framework_routes : list Route.t) (fuel : nat) :
  (1 ≤ fuel)%nat →
  Startup.import_api (Startup.get_or_create_app framework_routes fuel)
    Startup.initial
  = Startup.Returned tt
      {| Startup.app_instance := Some 0%nat;
         Startup.objects := [framework_routes ++ Startup.api_routes];
         Startup.api_loaded := true;
         Startup.api_app := Some 0%nat;
         Startup.providers := [_setup_app framework_routes];
         Startup.logging_setups := 1 |}.
Proof.
  intros Hfuel. destruct fuel as [| fuel]; [lia |]. apply api_run.
Qed.

(** With no framework routes at all, api-first start-up installs no
    bridge, whereas factory-first start-up installs one. *)
Lemma api_first_startup_witness :
  Startup.import_api (Startup.get_or_create_app [] 1) Startup.initial
  = Startup.Returned tt
      {| Startup.app_instance := Some 0%nat;
         Startup.objects := [Startup.api_routes];
         Startup.api_loaded := true;
         Startup.api_app := Some 0%nat;
         Startup.providers := [[BatchSpanProcessor]];
         Startup.logging_setups := 1 |}.
Proof.
  rewrite (api_first_startup [] 1) by lia. reflexivity.
Defined.

(** X10. However the app is obtained, and however often (factory calls
    and imports of api.py in any order, at least one), every request
    yields the same single [FastAPI] object, and set-up (tracer provider,
    logging) has run exactly once. *)
Theorem app_is_singleton
    (framework_routes : list Route.t) (fuel : nat)
    (rs : list Startup.request) :
  (2 ≤ fuel)%nat → rs ≠ [] →
  ∃ σ,
    Startup.obtain_all framework_routes fuel rs Startup.initial
    = Some (replicate (length rs) (Some 0%nat), σ) ∧
    Startup.objects σ = [framework_routes ++ Startup.api_routes] ∧
    length (Startup.providers σ) = 1%nat ∧
    Startup.logging_setups σ = 1%nat ∧
    Startup.app_instance σ = Some 0%nat ∧
    Startup.api_app σ = Some 0%nat.
Proof.
  intros Hfuel Hrs. destruct fuel as [| [| fuel]]; [lia | lia |].
  destruct rs as [| r rs]; [done |]. clear Hrs.
  destruct r; cbn [Startup.obtain_all Startup.obtain].
  - rewrite factory_run, obtain_all_settled by done.
    eexists. split; [reflexivity |]. done.
  - rewrite api_run, obtain_all_settled by done.
    eexists. split; [reflexivity |]. done.
Qed.

Lemma app_is_singleton_witness :
  ∃ σ,
    Startup.obtain_all [] 2
      [Startup.ImportApi; Startup.CallFactory; Startup.ImportApi]
      Startup.initial
    = Some ([Some 0%nat; Some 0%nat; Some 0%nat], σ) ∧
    Startup.objects σ = [Startup.api_routes] ∧
    length (Startup.providers σ) = 1%nat.
Proof.
  destruct (app_is_singleton [] 2
              [Startup.ImportApi; Startup.CallFactory; Startup.ImportApi])
    as (σ & Hrun & Hobjects & Hproviders & _); [lia | done |].
  exists σ. done.
Defined.


(** * util.py and api.py *)

Lemma iter_after (A : Type) (f : A → A) (m n : nat) (x : A) :
  Nat.iter n f (f (Nat.iter m f (f x))) = Nat.iter (m + n + 1) f (f x).
Proof.
  replace (m + n + 1)%nat with (S n + m)%nat by lia.
  rewrite Nat.iter_add. cbn [Nat.iter]. by rewrite Nat.iter_succ_r.
Qed.

(** X11. [hash_multiple] digests once before its loop: with [rounds <= 0]
    it returns the digest of the input (never the input itself), and
    hashing the result of [m] rounds for [n] more rounds is hashing the
    input for [m + n + 1] rounds. *)
Theorem hash_multiple_rounds
    (sha512_hexdigest : string → string) (input_str : string) :
  (∀ rounds, rounds ≤ 0 →
     (Util.hash_multiple sha512_hexdigest input_str rounds).1
     = sha512_hexdigest input_str) ∧
  (∀ m n, 0 ≤ m → 0 ≤ n →
     (Util.hash_multiple sha512_hexdigest
        (Util.hash_multiple sha512_hexdigest input_str m).1 n).1
     = (Util.hash_multiple sha512_hexdigest input_str (m + n + 1)).1).
Proof.
  split.
  - intros rounds Hrounds. unfold Util.hash_multiple. simpl.
    replace (Z.to_nat rounds) with 0%nat by lia. reflexivity.
  - intros m n Hm Hn. unfold Util.hash_multiple. simpl.
    replace (Z.to_nat (m + n + 1))
      with (Z.to_nat m + Z.to_nat n + 1)%nat by lia.
    apply iter_after.
Qed.

(** A stand-in digest, to run the functions on. *)
Lemma hash_multiple_rounds_witness :
  (Util.hash_multiple (String "#"%char) "x" (-3)).1 = "#x" ∧
  (Util.hash_multiple (String "#"%char)
     (Util.hash_multiple (String "#"%char) "x" 1).1 2).1
  = (Util.hash_multiple (String "#"%char) "x" 4).1.
Proof.
  destruct (hash_multiple_rounds (String "#"%char) "x") as [Hnone Hchain].
  split.
  - apply (Hnone (-3)). lia.
  - apply (Hchain 1 2); lia.
Defined.



(** X13. [expensive] answers a falsy JSON body (null, false, 0, 0.0, "",
    [] or {}) with status 400 and "no json body", without starting a
    span, decoding or hashing anything. For a truthy body whose text
    decodes it leaves the status code alone and returns "success" with
    the hash of the body text, and the outcome of the simulated external
    call does not change that reply: a failed call is only logged. An
    exception of [request.json()], or of the decoding of a truthy body,
    goes through the handler: no reply, no hashing, and the hashing span
    the decoding ran in is ended. *)
Theorem expensive_reply
    (sha512_hexdigest : string → string) (parsed : Api.attempt Api.json)
    (text : Api.attempt string) (rounds : Z) (db_delay call_delay : float)
    (failed : bool) :
  match parsed, text with
  | Api.Throws exception, _ =>
      Api.expensive sha512_hexdigest parsed text rounds db_delay call_delay
        failed
      = Api.Propagated exception []
  | Api.Value j, Api.Throws exception =>
      Api.expensive sha512_hexdigest parsed text rounds db_delay call_delay
        failed
      = if Api.json_truthy j then
          Api.Propagated exception
            [SpanStart "pointless hashing operation";
             SpanEnd "pointless hashing operation"]
        else
          Api.Replied
            {| Api.status_code := Some 400;
               Api.body := [("message", "no json body")];
               Api.events := [] |}
  | Api.Value j, Api.Value t =>
      if Api.json_truthy j then
        ∃ reply,
          Api.expensive sha512_hexdigest parsed text rounds db_delay
            call_delay failed
          = Api.Replied reply ∧
          Api.status_code reply = None ∧
          Api.body reply
          = [("message", "success");
             ("hash", (Util.hash_multiple sha512_hexdigest t rounds).1)] ∧
          (LogWarning "api" "Simulated external call failed"
             ∈ Api.events reply
           ↔ failed = true)
      else
        Api.expensive sha512_hexdigest parsed text rounds db_delay
          call_delay failed
        = Api.Replied
            {| Api.status_code := Some 400;
               Api.body := [("message", "no json body")];
               Api.events := [] |}
  end.
Proof.
  unfold Api.expensive.
  destruct parsed as [j | exception]; [| by destruct text].
  destruct text as [t | exception];
    destruct (Api.json_truthy j); simpl; try reflexivity.
  eexists. split; [reflexivity |]. simpl.
  split; [reflexivity |]. split; [reflexivity |].
  rewrite !elem_of_cons. destruct failed; split.
  - done.
  - intros _. repeat first [left; reflexivity | right].
  - intros Hin. repeat (destruct Hin as [Hin | Hin]; [discriminate Hin |]).
    by apply elem_of_nil in Hin.
  - done.
Qed.

(** * Structured logging *)

(** X14. On a root logger without handlers, [setup_structured_logging]
    with [enable_otel] adds the stream handler and then the OTel handler,
    both carrying the filter for [app_name], and sets the root level to
    [log_level]; the JSON formatter, when enabled, is the stream
    handler's only, the OTel handler always gets the plain default
    format. Only then does it call the instrumentor, on the root logger
    so configured, and the outcome of that call is its own. *)
Theorem logging_with_otel
    (instrument : Logging.State → Logging.completion * Logging.State)
    (app_name : option string) (enable_json_formatter : bool)
    (log_level : Z) (σ : Logging.State) :
  Logging.handlers (Logging.root σ) = [] →
  Logging.setup_structured_logging instrument app_name true
    enable_json_formatter log_level σ
  = instrument
      {| Logging.root :=
           {| Logging.handlers :=
                [{| Logging.class := Logging.StreamHandler;
                    Logging.level := Logging.NOTSET;
                    Logging.filters := [{| Logging.appname := app_name |}];
                    Logging.formatter :=
                      Some (if enable_json_formatter
                            then Logging.JsonFormatter Logging.json_format
                                   Logging.json_rename_fields
                            else Logging.PlainFormatter
                                   "%(levelname)-7s %(message)s") |};
                 {| Logging.class := Logging.OtelLoggingHandler;
                    Logging.level := log_level;
                    Logging.filters := [{| Logging.appname := app_name |}];
                    Logging.formatter :=
                      Some (Logging.PlainFormatter
                              "%(levelname)-7s %(message)s") |}];
              Logging.root_level := log_level |};
         Logging.instrumented := Logging.instrumented σ |}.
Proof.
  intros Hfresh.
  unfold Logging.setup_structured_logging, Logging.basicConfig.
  rewrite Hfresh. destruct enable_json_formatter; simpl;
    rewrite Hfresh; reflexivity.
Qed.

Lemma logging_with_otel_witness :
  (Logging.setup_structured_logging Logging.instrument_once
     (Some "fastapi-tracing") true false Logging.INFO
     {| Logging.root :=
          {| Logging.handlers := [];
             Logging.root_level := Logging.WARNING |};
        Logging.instrumented := false |}).1
  = Logging.Done.
Proof.
  rewrite (logging_with_otel Logging.instrument_once
             (Some "fastapi-tracing") false Logging.INFO);
    reflexivity.
Defined.

(** X15. On a root logger without handlers, [setup_structured_logging]
    with [enable_otel=False] fails: the handler list it gives to
    [logging.basicConfig] ends with [None], which raises AttributeError
    after the stream handler has been added. The root level is not set
    and logging is not instrumented. *)
Theorem logging_without_otel
    (instrument : Logging.State → Logging.completion * Logging.State)
    (app_name : option string) (enable_json_formatter : bool)
    (log_level : Z) (σ : Logging.State) :
  Logging.handlers (Logging.root σ) = [] →
  ∃ stream_handler,
    Logging.setup_structured_logging instrument app_name false
      enable_json_formatter log_level σ
    = (Logging.AttributeError,
       {| Logging.root :=
            {| Logging.handlers := [stream_handler];
               Logging.root_level := Logging.root_level (Logging.root σ) |};
          Logging.instrumented := Logging.instrumented σ |}) ∧
    Logging.class stream_handler = Logging.StreamHandler.
Proof.
  intros Hfresh.
  unfold Logging.setup_structured_logging, Logging.basicConfig.
  rewrite Hfresh. destruct enable_json_formatter; simpl;
    rewrite Hfresh; eexists; split; reflexivity.
Qed.

Lemma logging_without_otel_witness :
  (Logging.setup_structured_logging Logging.instrument_once None false false
     Logging.INFO
     {| Logging.root :=
          {| Logging.handlers := [];
             Logging.root_level := Logging.WARNING |};
        Logging.instrumented := false |}).1
  = Logging.AttributeError.
Proof.
  destruct (logging_without_otel Logging.instrument_once None false
              Logging.INFO
              {| Logging.root :=
                   {| Logging.handlers := [];
                      Logging.root_level := Logging.WARNING |};
                 Logging.instrumented := false |})
    as (h & Hrun & _); [reflexivity |].
  rewrite Hrun. reflexivity.
Defined.

(** X16. On a root logger that already has a handler,
    [setup_structured_logging] changes neither its handlers nor its
    level, whatever its arguments: none of the handlers it built is
    installed, and the [None] of [enable_otel=False] is not looked at.
    It goes straight to the instrumentor, on the logging state as it
    found it, and returns or raises as the instrumentor does. *)
Theorem logging_already_configured
    (instrument : Logging.State → Logging.completion * Logging.State)
    (app_name : option string) (enable_otel enable_json_formatter : bool)
    (log_level : Z) (σ : Logging.State) :
  Logging.handlers (Logging.root σ) ≠ [] →
  Logging.setup_structured_logging instrument app_name enable_otel
    enable_json_formatter log_level σ
  = instrument σ.
Proof.
  intros Hconfigured.
  unfold Logging.setup_structured_logging, Logging.basicConfig.
  destruct σ as [root instrumented]. simpl in *.
  destruct (Logging.handlers root) as [| h hs]; [done |].
  reflexivity.
Qed.

(** A second call in a process the first call has set up: nothing is
    installed, and the instrumentor's refusal comes through. *)
Lemma logging_already_configured_witness :
  Logging.setup_structured_logging Logging.instrument_once None false true
    Logging.INFO
    {| Logging.root :=
         {| Logging.handlers :=
              [{| Logging.class := Logging.StreamHandler;
                  Logging.level := Logging.NOTSET;
                  Logging.filters := [];
                  Logging.formatter := None |}];
            Logging.root_level := Logging.WARNING |};
       Logging.instrumented := true |}
  = (Logging.AttributeError,
     {| Logging.root :=
          {| Logging.handlers :=
               [{| Logging.class := Logging.StreamHandler;
                   Logging.level := Logging.NOTSET;
                   Logging.filters := [];
                   Logging.formatter := None |}];
             Logging.root_level := Logging.WARNING |};
        Logging.instrumented := true |}).
Proof.
  rewrite (logging_already_configured Logging.instrument_once None false true
             Logging.INFO).
  - reflexivity.
  - discriminate.
Defined.

(** X17. [AppNameFilter.filter] never rejects a record. It binds
    [appname] to the filter's name and leaves every other attribute of
    the record as it was; when a record passes two such filters, the
    name of the later one stays. *)
Theorem app_name_filter_stamps
    (f g : Logging.AppNameFilter) (record : gmap string (option string)) :
  (Logging.filter f record).1 = true ∧
  (Logging.filter f record).2 !! "appname" = Some (Logging.appname f) ∧
  (∀ key, key ≠ "appname" →
          (Logging.filter f record).2 !! key = record !! key) ∧
  (Logging.filter g (Logging.filter f record).2).2
  = (Logging.filter g record).2.
Proof.
  unfold Logging.filter. simpl. split; [done |].
  split; [by rewrite lookup_insert_eq |].
  split; [intros key Hkey; by rewrite lookup_insert_ne |].
  by rewrite insert_insert_eq.
Qed.

(** X17 has no side condition beyond [key ≠ "appname"]. *)
Lemma app_name_filter_stamps_witness :
  (Logging.filter {| Logging.appname := Some "svc" |}
     {["message" := Some "hello"]}).2 !! "message" = Some (Some "hello").
Proof.
  rewrite (proj1 (proj2 (proj2 (app_name_filter_stamps
             {| Logging.appname := Some "svc" |}
             {| Logging.appname := None |}
             {["message" := Some "hello"]}))) "message") by done.
  reflexivity.
Defined.

(** * Whole milliseconds

    When the elapsed time is a whole number of milliseconds, the integer
    quotient of the division has no remainder, and it fits the 53-bit
    mantissa: the rounding has nothing to round. *)

Lemma pos_ge_pow_digits (p : positive) :
  2 ^ (Z.pos (digits2_pos p) - 1) ≤ Z.pos p.
Proof.
  rewrite digits2_pos_size. pose proof (Pos.size_le p) as Hsize.
  apply Pos2Z.pos_le_pos in Hsize. rewrite Pos2Z.inj_pow in Hsize.
  replace (Z.pos (Pos.size p)) with (Z.succ (Z.pos (Pos.size p) - 1)) in Hsize
    by lia.
  rewrite Z.pow_succ_r in Hsize by lia. lia.
Qed.

Lemma Zdigits2_unique (x d : Z) :
  0 < d → 2 ^ (d - 1) ≤ x < 2 ^ d → Zdigits2 x = d.
Proof.
  intros Hd [Hlo Hhi].
  assert (Hx : 0 < x) by (pose proof (Z.pow_pos_nonneg 2 (d - 1)); lia).
  destruct x as [| p | p]; [lia | | lia]. simpl.
  pose proof (pos_lt_pow_digits p) as Hup.
  pose proof (pos_ge_pow_digits p) as Hdown.
  set (n := Z.pos (digits2_pos p)) in *.
  assert (Hn : 0 < n) by (unfold n; lia).
  assert (H1 : 2 ^ (n - 1) < 2 ^ d) by lia.
  assert (H2 : 2 ^ (d - 1) < 2 ^ n) by lia.
  apply Z.pow_lt_mono_r_iff in H1; [| lia | lia].
  apply Z.pow_lt_mono_r_iff in H2; [| lia | lia].
  lia.
Qed.

Lemma Zdigits2_bounds (x : Z) :
  0 < x → 2 ^ (Zdigits2 x - 1) ≤ x < 2 ^ Zdigits2 x.
Proof.
  intros Hx. destruct x as [| p | p]; [lia | | lia]. simpl.
  split; [apply pos_ge_pow_digits | apply pos_lt_pow_digits].
Qed.

Lemma Zdigits2_mul_pow2 (x s : Z) :
  0 < x → 0 ≤ s → Zdigits2 (x * 2 ^ s) = Zdigits2 x + s.
Proof.
  intros Hx Hs. pose proof (Zdigits2_bounds x Hx) as [Hlo Hhi].
  assert (Hd : 0 < Zdigits2 x) by (destruct x; simpl; lia).
  assert (Hp : 0 < 2 ^ s) by (apply Z.pow_pos_nonneg; lia).
  apply Zdigits2_unique; [lia |].
  replace (Zdigits2 x + s - 1) with (Zdigits2 x - 1 + s) by lia.
  rewrite !Z.pow_add_r by lia. nia.
Qed.

Lemma binary_round_aux_exact (sx : bool) (mx ex : Z) :
  0 < mx → -1074 ≤ ex ≤ 0 → Zdigits2 mx + ex ≤ 53 + ex →
  binary_round_aux prec emax sx mx ex loc_Exact
  = S754_finite sx (Z.to_pos mx) ex.
Proof.
  intros Hmx Hex Hd. unfold binary_round_aux, shr_fexp, shr.
  assert (Hn : fexp prec emax (Zdigits2 mx + ex) - ex ≤ 0).
  { unfold fexp, emin, prec, emax. lia. }
  destruct (fexp prec emax (Zdigits2 mx + ex) - ex) as [| n | n] eqn:Hfexp;
    [| lia |]; simpl; rewrite Hfexp; simpl;
    (destruct mx as [| m | m]; [lia | | lia]); simpl;
    (destruct (ex <=? emax - prec) eqn:Hle;
       [reflexivity | apply Z.leb_gt in Hle; unfold emax, prec in Hle; lia]).
Qed.

Lemma binary_round_aux_exact_shift (sx : bool) (h ex : Z) :
  0 < h → Zdigits2 h = 53 → -1074 ≤ ex ≤ -1 →
  binary_round_aux prec emax sx (2 * h) ex loc_Exact
  = S754_finite sx (Z.to_pos h) (ex + 1).
Proof.
  intros Hh Hd Hex. destruct h as [| p | p]; [lia | | lia].
  change (2 * Z.pos p) with (Z.pos p~0).
  unfold binary_round_aux, shr_fexp, shr.
  assert (Hd2 : Zdigits2 (Z.pos p~0) = 54).
  { simpl in *. lia. }
  rewrite Hd2.
  replace (fexp prec emax (54 + ex) - ex) with 1
    by (unfold fexp, emin, prec, emax; lia).
  cbn [SpecFloat.iter_pos shr_record_of_loc shr_1 shr_m orb
       loc_of_shr_record round_nearest_even].
  rewrite Hd.
  replace (fexp prec emax (53 + (ex + 1)) - (ex + 1)) with 0
    by (unfold fexp, emin, prec, emax; lia).
  cbn [shr_m shr_record_of_loc Z.to_pos].
  destruct (ex + 1 <=? emax - prec) eqn:Hle; [reflexivity |].
  apply Z.leb_gt in Hle. unfold emax, prec in Hle. lia.
Qed.

Lemma SFdiv_whole (sa : bool) (k : positive) :
  Z.pos k < 2 ^ 53 →
  ∃ m e,
    SFdiv prec emax (S754_finite sa (k * 1000000) 0)
      (S754_finite false 1000000 0)
    = S754_finite sa m e ∧
    e ≤ 0 ∧ Z.pos m = Z.pos k * 2 ^ (- e).
Proof.
  intros Hk. unfold SFdiv, SFdiv_core_binary.
  rewrite xorb_false_r, Pos2Z.inj_mul.
  set (a := Z.pos k * 1000000).
  change (Zdigits2 1000000) with 20.
  pose proof (Zdigits2_bounds (Z.pos k) ltac:(lia)) as [Hklo Hkhi].
  set (dk := Zdigits2 (Z.pos k)) in *.
  assert (Hdk : 1 ≤ dk ≤ 53).
  { split; [unfold dk; simpl; lia |]. apply Zdigits2_le; lia. }
  pose proof (Zdigits2_bounds a ltac:(lia)) as [Halo Hahi].
  set (d1 := Zdigits2 a) in *.
  assert (Hd1 : dk + 19 ≤ d1 ≤ dk + 20).
  { split.
    - assert (H : 2 ^ (dk + 18) < 2 ^ d1).
      { apply Z.le_lt_trans with a; [| done].
        replace (dk + 18) with (dk - 1 + 19) by lia.
        rewrite Z.pow_add_r by lia. unfold a.
        change (2 ^ 19) with 524288. nia. }
      apply Z.pow_lt_mono_r_iff in H; [lia | lia |].
      unfold d1. apply Zdigits2_nonneg.
    - apply Zdigits2_le; [lia |]. split; [lia |].
      rewrite Z.pow_add_r by lia. unfold a.
      change (2 ^ 20) with 1048576. nia. }
  replace (Z.min (fexp prec emax (d1 + 0 - (20 + 0))) (0 - 0)) with (d1 - 73)
    by (unfold fexp, emin, prec, emax; lia).
  set (s := 0 - 0 - (d1 - 73)).
  assert (Hs : s = 73 - d1) by (unfold s; lia).
  assert (Hm' : match s with
                | 0 => a
                | Z.pos _ => Z.shiftl a s
                | Z.neg _ => 0
                end = Z.pos k * 2 ^ s * 1000000).
  { destruct s as [| p | p] eqn:Hsp; [unfold a; lia | | lia].
    rewrite Z.shiftl_mul_pow2 by lia. unfold a. lia. }
  rewrite Hm'.
  destruct (Z.div_eucl (Z.pos k * 2 ^ s * 1000000) 1000000) as [q r] eqn:Hdiv.
  assert (Hq : q = Z.pos k * 2 ^ s).
  { rewrite <- (Z.div_mul (Z.pos k * 2 ^ s) 1000000) by lia.
    unfold Z.div. by rewrite Hdiv. }
  assert (Hr : r = 0).
  { rewrite <- (Z.mod_mul (Z.pos k * 2 ^ s) 1000000) by lia.
    unfold Z.modulo. by rewrite Hdiv. }
  subst q r.
  change (new_location 1000000 0) with loc_Exact.
  assert (Hpow : 0 < 2 ^ s) by (apply Z.pow_pos_nonneg; lia).
  assert (Hdq : Zdigits2 (Z.pos k * 2 ^ s) = dk + s).
  { apply Zdigits2_mul_pow2; lia. }
  destruct (decide (d1 = dk + 20)) as [Heq | Hne].
  - rewrite binary_round_aux_exact; [| nia | lia | lia].
    eexists _, _. split; [reflexivity |]. split; [lia |].
    rewrite Z2Pos.id by nia.
    assert (He : - (d1 - 73) = s) by lia.
    by rewrite He.
  - assert (Hs1 : s = 54 - dk) by lia.
    replace (Z.pos k * 2 ^ s) with (2 * (Z.pos k * 2 ^ (s - 1))).
    2:{ replace s with (Z.succ (s - 1)) at 2 by lia.
        rewrite Z.pow_succ_r by lia. lia. }
    assert (Hpow1 : 0 < 2 ^ (s - 1)) by (apply Z.pow_pos_nonneg; lia).
    rewrite binary_round_aux_exact_shift; [| nia | | lia].
    + eexists _, _. split; [reflexivity |]. split; [lia |].
      rewrite Z2Pos.id by nia.
      assert (He : - (d1 - 73 + 1) = s - 1) by lia.
      by rewrite He.
    + rewrite Zdigits2_mul_pow2 by lia. fold dk. lia.
Qed.

Lemma truediv_whole_ms (k : Z) :
  Z.abs k < 2 ^ 53 →
  ∃ q, truediv (k * 1000000) 1000000 = Ok q ∧ float_is_integer q k.
Proof.
  intros Hk. destruct k as [| k | k].
  - by eexists.
  - destruct (SFdiv_whole false k) as (m & e & Hdiv & He & Hm); [lia |].
    exists (S754_finite false m e). split; [| done].
    unfold truediv.
    change (Z.pos k * 1000000) with (Z.pos (k * 1000000)).
    cbv beta iota.
    change (Z.to_pos (Z.abs (Z.pos (k * 1000000)))) with (k * 1000000)%positive.
    change (Z.to_pos (Z.abs 1000000)) with 1000000%positive.
    change (Z.pos (k * 1000000) <? 0) with false.
    change (1000000 <? 0) with false.
    by rewrite Hdiv.
  - destruct (SFdiv_whole true k) as (m & e & Hdiv & He & Hm); [lia |].
    exists (S754_finite true m e). split; [| done].
    unfold truediv.
    change (Z.neg k * 1000000) with (Z.neg (k * 1000000)).
    cbv beta iota.
    change (Z.to_pos (Z.abs (Z.neg (k * 1000000)))) with (k * 1000000)%positive.
    change (Z.to_pos (Z.abs 1000000)) with 1000000%positive.
    change (Z.neg (k * 1000000) <? 0) with true.
    change (1000000 <? 0) with false.
    by rewrite Hdiv.
Qed.

(** X18. A duration of a whole number [k] of milliseconds, with
    [|k| < 2 ^ 53], is recorded without rounding error: the amount of the
    sample is the float whose value is exactly [k]. *)
Theorem on_end_whole_milliseconds
    (sc : SemConv) (span : Span.t) (w : World) (s e k : Z) :
  Span.name span ∈ span_names (this w) →
  Span._start_time span = Some s →
  Span._end_time span = Some e →
  s ≠ 0 → e ≠ 0 →
  e - s = k * 1000000 →
  Z.abs k < 2 ^ 53 →
  ∃ q,
    on_end sc span w =
      (Ok tt,
       {| this := this w;
          recorded :=
            recorded w ++
            [Measurement.mk (request_latency_histogram (this w)) q
               (metric_attributes sc span)] |}) ∧
    float_is_integer q k.
Proof.
  intros Hin Hs He Hs0 He0 Hk Hrange.
  destruct (truediv_whole_ms k Hrange) as (q & Hq & Hint).
  exists q. split; [| done].
  rewrite (on_end_measured sc span w s e) by done.
  by rewrite Hk, Hq.
Qed.

Lemma on_end_whole_milliseconds_witness :
  ∃ q,
    Measurement.amount
      <$> recorded (on_end otel_semconv
                      (ping_span (Some 1000000) (Some 3601000000000))
                      ping_world).2
    = [q] ∧
    float_is_integer q 3600999.
Proof.
  destruct (on_end_whole_milliseconds otel_semconv
              (ping_span (Some 1000000) (Some 3601000000000)) ping_world
              1000000 3601000000000 3600999)
    as (q & Hrun & Hint);
    [vm_compute; reflexivity | reflexivity | reflexivity | lia | lia | lia
    | lia |].
  exists q. rewrite Hrun. done.
Defined.
